(** * An alpha-beta chess engine and its static evaluator

    A shallow embedding of [chess_engine.py] (class [ChessEngine]) and
    [evaluation.py] (class [ChessEvaluator]).

    Conventions.
    - Python [int] is [Z]; Python [float] is an exact rational [Q], extended
      with the two infinities where the code uses [float('inf')]
      (type [pyfloat]).  Rounding of IEEE doubles is not modelled.
    - The [chess.Board] object is one shared mutable object: every function
      that touches it takes the board and gives the board back.
    - [time.time()] is a stream of clock readings indexed by the number of
      reads made so far.
    - Python exceptions are results [Raise e]; the state reached when the
      exception is raised is kept, as Python keeps mutations. *)

From Stdlib Require Import ZArith QArith Qabs List String Ascii Bool Lia.
From stdpp Require Import gmap strings.
Import ListNotations.
Open Scope Z_scope.

(** ** Data of the rules library ([import chess]) *)

Inductive PieceType := PAWN | KNIGHT | BISHOP | ROOK | QUEEN | KING.

Definition Color := bool.
Definition WHITE : Color := true.
Definition BLACK : Color := false.

Record Piece := mkPiece { piece_type : PieceType; color : Color }.

Definition Square := Z.

Record Move := mkMove {
  from_square : Square;
  to_square : Square;
  promotion : option PieceType }.

#[global] Instance PieceType_eq_dec : EqDecision PieceType.
Proof. solve_decision. Defined.
#[global] Instance Piece_eq_dec : EqDecision Piece.
Proof. solve_decision. Defined.
#[global] Instance Move_eq_dec : EqDecision Move.
Proof. solve_decision. Defined.

Definition PieceType_eqb (a b : PieceType) : bool := bool_decide (a = b).

(** What [push] saves and [pop] restores. *)
Record BoardState := mkState {
  st_placement : list (option Piece);
  st_turn : Color;
  st_castling_rights : list Square;
  st_ep_square : option Square;
  st_halfmove_clock : Z;
  st_fullmove_number : Z }.

(** [chess.Board]: 64 squares a1, b1, ..., h8; side to move; the rook
    squares that still carry a castling right; the en-passant square; the
    two clocks; and the stack of moves played with the states before them. *)
Record Board := mkBoard {
  placement : list (option Piece);
  turn : Color;
  castling_rights : list Square;
  ep_square : option Square;
  halfmove_clock : Z;
  fullmove_number : Z;
  move_stack : list (Move * BoardState) }.

Definition board_state (b : Board) : BoardState :=
  mkState (placement b) (turn b) (castling_rights b) (ep_square b)
          (halfmove_clock b) (fullmove_number b).

(** [board.turn = c] *)
Definition set_turn (b : Board) (c : Color) : Board :=
  mkBoard (placement b) c (castling_rights b) (ep_square b)
          (halfmove_clock b) (fullmove_number b) (move_stack b).

Definition set_placement (b : Board) (pl : list (option Piece)) : Board :=
  mkBoard pl (turn b) (castling_rights b) (ep_square b)
          (halfmove_clock b) (fullmove_number b) (move_stack b).

Definition SQUARES : list Square := List.map Z.of_nat (seq 0 64).

Definition square_file (sq : Square) : Z := Z.land sq 7.
Definition square_rank (sq : Square) : Z := Z.shiftr sq 3.
Definition square (file rank : Z) : Square := rank * 8 + file.
Definition square_mirror (sq : Square) : Square := Z.lxor sq 56.

Definition piece_at (b : Board) (sq : Square) : option Piece :=
  if sq <? 0 then None else nth (Z.to_nat sq) (placement b) None.

(** [board.pieces(piece_type, color)], as the ascending list of squares *)
Definition pieces (b : Board) (pt : PieceType) (c : Color) : list Square :=
  List.filter (fun sq => bool_decide (piece_at b sq = Some (mkPiece pt c))) SQUARES.

(** [board.king(color)]: the highest square holding a king of that colour *)
Definition king (b : Board) (c : Color) : option Square :=
  last (pieces b KING c).

(** *** Piece placement as text: the first field of a FEN *)

Definition piece_symbol (p : Piece) : ascii :=
  let lower := match piece_type p with
               | PAWN => "p" | KNIGHT => "n" | BISHOP => "b"
               | ROOK => "r" | QUEEN => "q" | KING => "k"
               end%char in
  if color p then ascii_of_nat (nat_of_ascii lower - 32) else lower.

Definition digit_char (n : nat) : ascii := ascii_of_nat (48 + n).

Definition flush_empty (n : nat) (s : string) : string :=
  match n with O => s | _ => String (digit_char n) s end.

(** One rank, read from the h-file back to the a-file, [acc] being the text
    already produced for the files to the right and [n] the run of empty
    squares pending in front of it. *)
Fixpoint rank_fen (rev_rank : list (option Piece)) (n : nat) (acc : string) : string :=
  match rev_rank with
  | [] => flush_empty n acc
  | None :: r => rank_fen r (S n) acc
  | Some p :: r => rank_fen r O (String (piece_symbol p) (flush_empty n acc))
  end.

Definition rank_squares (b : Board) (r : Z) : list (option Piece) :=
  List.map (fun f => piece_at b (square f r)) [0; 1; 2; 3; 4; 5; 6; 7].

(** [board.fen().split(' ')[0]] *)
Definition board_fen (b : Board) : string :=
  fold_right
    (fun r acc =>
       let txt := rank_fen (rev (rank_squares b r)) O EmptyString in
       if r =? 0 then append txt acc else append txt (String "/" acc))
    EmptyString [7; 6; 5; 4; 3; 2; 1; 0].

Definition symbol_piece (a : ascii) : option Piece :=
  match a with
  | "P" => Some (mkPiece PAWN WHITE) | "N" => Some (mkPiece KNIGHT WHITE)
  | "B" => Some (mkPiece BISHOP WHITE) | "R" => Some (mkPiece ROOK WHITE)
  | "Q" => Some (mkPiece QUEEN WHITE) | "K" => Some (mkPiece KING WHITE)
  | "p" => Some (mkPiece PAWN BLACK) | "n" => Some (mkPiece KNIGHT BLACK)
  | "b" => Some (mkPiece BISHOP BLACK) | "r" => Some (mkPiece ROOK BLACK)
  | "q" => Some (mkPiece QUEEN BLACK) | "k" => Some (mkPiece KING BLACK)
  | _ => None
  end%char.

(** Reads a placement field into the list of ranks, eighth rank first. *)
Fixpoint parse_ranks (s : string) (cur : list (option Piece)) : list (list (option Piece)) :=
  match s with
  | EmptyString => [cur]
  | String a s' =>
      if Ascii.eqb a "/" then cur :: parse_ranks s' []
      else match symbol_piece a with
           | Some p => parse_ranks s' (cur ++ [Some p])
           | None => parse_ranks s' (cur ++ repeat None (nat_of_ascii a - 48))
           end
  end.

Definition placement_of_fen (s : string) : list (option Piece) :=
  concat (rev (parse_ranks s [])).

(** [chess.Board(fen)] for a FEN whose fields are given apart *)
Definition board_of_fen (pl : string) (t : Color) (rights : list Square)
    (ep : option Square) (half full : Z) : Board :=
  mkBoard (placement_of_fen pl) t rights ep half full [].

Definition A1 : Square := 0.
Definition H1 : Square := 7.
Definition A8 : Square := 56.
Definition H8 : Square := 63.

(** [chess.Board()] *)
Definition starting_board : Board :=
  board_of_fen "rnbqkbnr/pppppppp/8/8/8/8/PPPPPPPP/RNBQKBNR" WHITE
               [A1; H1; A8; H8] None 0 1.

Definition swap_color (p : Piece) : Piece := mkPiece (piece_type p) (negb (color p)).

(** [board.mirror()]: the board flipped top to bottom with the colours, the
    side to move, the castling rights and the en-passant square swapped
    over; the copy has no move stack. *)
Definition mirror (b : Board) : Board :=
  mkBoard (List.map (fun sq => option_map swap_color (piece_at b (square_mirror sq))) SQUARES)
          (negb (turn b))
          (List.map square_mirror (castling_rights b))
          (option_map square_mirror (ep_square b))
          (halfmove_clock b) (fullmove_number b) [].

(** ** The rules-engine collaborator

    The operations of [chess.Board] the engine and the evaluator call.
    They belong to the rules library, not to this repository, so the
    development is stated over any implementation of them. *)

Class RulesEngine := {
  legal_moves : Board -> list Move;
  push : Board -> Move -> Board;
  pop : Board -> Board;
  is_check : Board -> bool;
  is_checkmate : Board -> bool;
  is_stalemate : Board -> bool;
  is_insufficient_material : Board -> bool;
  is_game_over : Board -> bool;
  is_capture : Board -> Move -> bool;
  attacks : Board -> Square -> list Square;
  attackers : Board -> Color -> Square -> list Square;
  is_attacked_by : Board -> Color -> Square -> bool;
  has_castling_rights : Board -> Color -> bool }.

(** A reference implementation for standard chess, following the rules
    library: same answers and, for [legal_moves], the same order of
    generation (pieces from the highest square down, castling, pawn
    captures, single steps, double steps, en passant; when in check the king
    moves come first). *)
Module PyChess.

Definition occupied (b : Board) (sq : Square) : bool :=
  match piece_at b sq with Some _ => true | None => false end.

Definition occupied_co (b : Board) (c : Color) (sq : Square) : bool :=
  match piece_at b sq with Some p => Bool.eqb (color p) c | None => false end.

Definition has_type (b : Board) (pt : PieceType) (sq : Square) : bool :=
  match piece_at b sq with Some p => PieceType_eqb (piece_type p) pt | None => false end.

(** [chess.between(a, b)]: the squares strictly between two squares that
    share a rank, a file or a diagonal *)
Definition between (a b : Square) : list Square :=
  let df := square_file b - square_file a in
  let dr := square_rank b - square_rank a in
  if (df =? 0) || (dr =? 0) || (Z.abs df =? Z.abs dr) then
    List.map (fun i => square (square_file a + Z.of_nat i * Z.sgn df)
                              (square_rank a + Z.of_nat i * Z.sgn dr))
             (seq 1 (Z.to_nat (Z.max (Z.abs df) (Z.abs dr)) - 1))
  else [].

(** Does the piece on [from] attack [to]? *)
Definition attacks_from (b : Board) (from to : Square) : bool :=
  match piece_at b from with
  | None => false
  | Some p =>
      let df := square_file to - square_file from in
      let dr := square_rank to - square_rank from in
      let clear := forallb (fun s => negb (occupied b s)) (between from to) in
      let diag := (Z.abs df =? Z.abs dr) && negb (df =? 0) in
      let line := xorb (df =? 0) (dr =? 0) in
      match piece_type p with
      | PAWN => (dr =? (if color p then 1 else -1)) && (Z.abs df =? 1)
      | KNIGHT => ((Z.abs df =? 1) && (Z.abs dr =? 2))
                  || ((Z.abs df =? 2) && (Z.abs dr =? 1))
      | KING => Z.max (Z.abs df) (Z.abs dr) =? 1
      | BISHOP => diag && clear
      | ROOK => line && clear
      | QUEEN => (diag || line) && clear
      end
  end.

Definition attacks (b : Board) (sq : Square) : list Square :=
  List.filter (attacks_from b sq) SQUARES.

Definition attackers (b : Board) (c : Color) (sq : Square) : list Square :=
  List.filter (fun s => occupied_co b c s && attacks_from b s sq) SQUARES.

Definition is_attacked_by (b : Board) (c : Color) (sq : Square) : bool :=
  existsb (fun s => occupied_co b c s && attacks_from b s sq) SQUARES.

Definition is_check (b : Board) : bool :=
  match king b (turn b) with
  | Some k => is_attacked_by b (negb (turn b)) k
  | None => false
  end.

Definition is_en_passant (b : Board) (m : Move) : bool :=
  bool_decide (ep_square b = Some (to_square m))
  && has_type b PAWN (from_square m)
  && bool_decide (Z.abs (to_square m - from_square m) ∈ [7; 9])
  && negb (occupied b (to_square m)).

Definition is_capture (b : Board) (m : Move) : bool :=
  occupied_co b (negb (turn b)) (from_square m)
  || occupied_co b (negb (turn b)) (to_square m)
  || is_en_passant b m.

Definition is_castling (b : Board) (m : Move) : bool :=
  has_type b KING (from_square m)
  && ((2 <=? Z.abs (square_file (from_square m) - square_file (to_square m)))
      || (has_type b ROOK (to_square m) && occupied_co b (turn b) (to_square m))).

Definition back_rank (c : Color) : Z := if c then 0 else 7.

(** [clean_castling_rights()], standard chess *)
Definition clean_castling_rights (b : Board) : list Square :=
  List.filter
    (fun sq =>
       existsb
         (fun c =>
            (square_rank sq =? back_rank c)
            && bool_decide (piece_at b sq = Some (mkPiece ROOK c))
            && ((square_file sq =? 0) || (square_file sq =? 7))
            && bool_decide (piece_at b (square 4 (back_rank c)) = Some (mkPiece KING c)))
         [WHITE; BLACK])
    (castling_rights b).

Definition has_castling_rights (b : Board) (c : Color) : bool :=
  existsb (fun sq => square_rank sq =? back_rank c) (clean_castling_rights b).

Definition put (pl : list (option Piece)) (sq : Square) (x : option Piece) :=
  <[Z.to_nat sq := x]> pl.

(** [board.push(move)] *)
Definition push (b : Board) (m : Move) : Board :=
  let us := turn b in
  let from := from_square m in
  let to := to_square m in
  let moved := piece_at b from in
  let pt := match moved with Some p => piece_type p | None => PAWN end in
  let zeroing := has_type b PAWN from || has_type b PAWN to
                 || occupied_co b (negb us) from || occupied_co b (negb us) to in
  let rights0 := List.filter (fun s => negb (s =? from) && negb (s =? to)) (castling_rights b) in
  let rights := if PieceType_eqb pt KING
                then List.filter (fun s => negb (square_rank s =? back_rank us)) rights0
                else rights0 in
  let diff := to - from in
  let is_pawn := PieceType_eqb pt PAWN in
  let new_ep :=
    if is_pawn && (diff =? 16) && (square_rank from =? 1) then Some (from + 8)
    else if is_pawn && (diff =? -16) && (square_rank from =? 6) then Some (from - 8)
    else None in
  let pl1 := put (placement b) from None in
  let pl2 :=
    if is_pawn && bool_decide (ep_square b = Some to)
       && bool_decide (Z.abs diff ∈ [7; 9]) && negb (occupied b to)
    then put pl1 (to + (if us then -8 else 8)) None
    else pl1 in
  let landed := match promotion m with Some q => q | None => pt end in
  let pl3 :=
    if is_castling b m then
      let a_side := square_file to <? square_file from in
      let rook_from := if has_type b ROOK to && occupied_co b us to then to
                       else square (if a_side then 0 else 7) (back_rank us) in
      let pl' := put pl2 rook_from None in
      let pl'' := put pl' (square (if a_side then 2 else 6) (back_rank us))
                      (Some (mkPiece KING us)) in
      put pl'' (square (if a_side then 3 else 5) (back_rank us)) (Some (mkPiece ROOK us))
    else put pl2 to (Some (mkPiece landed us)) in
  mkBoard pl3 (negb us) rights new_ep
          (if zeroing then 0 else halfmove_clock b + 1)
          (if us then fullmove_number b else fullmove_number b + 1)
          ((m, board_state b) :: move_stack b).

(** [board.pop()]; the engine only pops what it has pushed *)
Definition pop (b : Board) : Board :=
  match move_stack b with
  | [] => b
  | (_, s) :: rest =>
      mkBoard (st_placement s) (st_turn s) (st_castling_rights s) (st_ep_square s)
              (st_halfmove_clock s) (st_fullmove_number s) rest
  end.

Definition rev_squares : list Square := rev SQUARES.

Definition pawn_moves_to (from to : Square) : list Move :=
  if (square_rank to =? 0) || (square_rank to =? 7)
  then List.map (fun q => mkMove from to (Some q)) [QUEEN; ROOK; BISHOP; KNIGHT]
  else [mkMove from to None].

Definition piece_moves (b : Board) (from_ok : Square -> bool) : list Move :=
  flat_map
    (fun from =>
       if occupied_co b (turn b) from && negb (has_type b PAWN from) && from_ok from
       then List.map (fun to => mkMove from to None)
              (List.filter (fun to => attacks_from b from to && negb (occupied_co b (turn b) to))
                           rev_squares)
       else [])
    rev_squares.

Definition castling_moves (b : Board) : list Move :=
  let us := turn b in
  let r := back_rank us in
  let k := square 4 r in
  flat_map
    (fun rook =>
       if negb (square_rank rook =? r) then [] else
       let a_side := rook <? k in
       let king_to := square (if a_side then 2 else 6) r in
       let rook_to := square (if a_side then 3 else 5) r in
       let no_king := set_placement b (put (placement b) k None) in
       let moved := set_placement b
                      (put (put (put (placement b) k None) rook None) rook_to
                           (Some (mkPiece ROOK us))) in
       let others := set_placement b (put (put (placement b) k None) rook None) in
       if forallb (fun s => negb (occupied others s))
                  (between k king_to ++ between rook rook_to ++ [king_to; rook_to])
          && forallb (fun s => negb (is_attacked_by no_king (negb us) s))
                     (k :: between k king_to)
          && negb (is_attacked_by moved (negb us) king_to)
       then [mkMove k king_to None] else [])
    (rev (clean_castling_rights b)).

Definition pawn_captures (b : Board) : list Move :=
  flat_map
    (fun from =>
       if occupied_co b (turn b) from && has_type b PAWN from
       then flat_map (pawn_moves_to from)
              (List.filter (fun to => attacks_from b from to && occupied_co b (negb (turn b)) to)
                           rev_squares)
       else [])
    rev_squares.

Definition pawn_dir (c : Color) : Z := if c then 8 else -8.

Definition single_ok (b : Board) (to : Square) : bool :=
  let from := to - pawn_dir (turn b) in
  (0 <=? from) && (from <? 64)
  && occupied_co b (turn b) from && has_type b PAWN from && negb (occupied b to).

Definition pawn_singles (b : Board) : list Move :=
  flat_map (fun to => if single_ok b to then pawn_moves_to (to - pawn_dir (turn b)) to else [])
           rev_squares.

Definition pawn_doubles (b : Board) : list Move :=
  flat_map
    (fun to =>
       let mid := to - pawn_dir (turn b) in
       if (if turn b then (square_rank to =? 2) || (square_rank to =? 3)
           else (square_rank to =? 5) || (square_rank to =? 4))
          && (0 <=? mid) && single_ok b mid && negb (occupied b to)
       then [mkMove (mid - pawn_dir (turn b)) to None] else [])
    rev_squares.

Definition ep_moves (b : Board) : list Move :=
  match ep_square b with
  | None => []
  | Some ep =>
      if occupied b ep then [] else
      List.map (fun from => mkMove from ep None)
        (List.filter
           (fun from =>
              occupied_co b (turn b) from && has_type b PAWN from
              && attacks_from b from ep
              && (square_rank from =? (if turn b then 4 else 3)))
           rev_squares)
  end.

Definition pseudo_legal_moves (b : Board) (from_ok : Square -> bool) (castle : bool) : list Move :=
  piece_moves b from_ok ++ (if castle then castling_moves b else [])
  ++ pawn_captures b ++ pawn_singles b ++ pawn_doubles b ++ ep_moves b.

(** The side that moved does not leave its king attacked. *)
Definition is_safe (b : Board) (m : Move) : bool :=
  let b' := push b m in
  match king b' (turn b) with
  | Some k => negb (is_attacked_by b' (negb (turn b)) k)
  | None => true
  end.

Definition legal_moves (b : Board) : list Move :=
  match king b (turn b) with
  | Some k =>
      if is_attacked_by b (negb (turn b)) k
      then List.filter (is_safe b)
             (piece_moves b (fun s => s =? k)
              ++ pseudo_legal_moves b (fun s => negb (has_type b KING s)) false)
      else List.filter (is_safe b) (pseudo_legal_moves b (fun _ => true) true)
  | None => pseudo_legal_moves b (fun _ => true) true
  end.

Definition is_checkmate (b : Board) : bool :=
  is_check b && bool_decide (legal_moves b = []).

Definition is_stalemate (b : Board) : bool :=
  negb (is_check b) && bool_decide (legal_moves b = []).

Definition count_co (b : Board) (c : Color) (ok : Piece -> bool) : nat :=
  List.length (List.filter
    (fun sq => match piece_at b sq with
               | Some p => Bool.eqb (color p) c && ok p
               | None => false
               end) SQUARES).

Definition is_dark (sq : Square) : bool := Z.even (square_file sq + square_rank sq).

Definition has_insufficient_material (b : Board) (c : Color) : bool :=
  let any_of c' ok := negb (Nat.eqb (count_co b c' ok) 0) in
  let typed t (p : Piece) := PieceType_eqb (piece_type p) t in
  if any_of c (fun p => typed PAWN p || typed ROOK p || typed QUEEN p) then false
  else if any_of c (typed KNIGHT) then
    Nat.leb (count_co b c (fun _ => true)) 2
    && negb (any_of (negb c) (fun p => negb (typed KING p) && negb (typed QUEEN p)))
  else if any_of c (typed BISHOP) then
    let bishops := List.filter (has_type b BISHOP) SQUARES in
    (forallb (fun s => negb (is_dark s)) bishops || forallb is_dark bishops)
    && forallb (fun s => negb (has_type b PAWN s) && negb (has_type b KNIGHT s)) SQUARES
  else true.

Definition is_insufficient_material (b : Board) : bool :=
  has_insufficient_material b WHITE && has_insufficient_material b BLACK.

(** [has_legal_en_passant()] *)
Definition has_legal_en_passant (b : Board) : bool :=
  existsb (is_safe b) (ep_moves b).

(** The squares a move touches: [BB_SQUARES[from] ^ BB_SQUARES[to]] *)
Definition touched (m : Move) : list Square :=
  if from_square m =? to_square m then [] else [from_square m; to_square m].

(** [is_zeroing(move)]: a pawn move or a capture *)
Definition is_zeroing (b : Board) (m : Move) : bool :=
  existsb (fun sq => has_type b PAWN sq || occupied_co b (negb (turn b)) sq) (touched m).

(** [_reduces_castling_rights(move)]: the move touches a rook square that
    carries a right, or moves the king of a side that has one *)
Definition reduces_castling_rights (b : Board) (m : Move) : bool :=
  let cr := clean_castling_rights b in
  existsb (fun sq => bool_decide (sq ∈ touched m)) cr
  || existsb
       (fun c =>
          existsb (fun sq => square_rank sq =? back_rank c) cr
          && existsb (fun sq => bool_decide (piece_at b sq = Some (mkPiece KING c)))
                     (touched m))
       [WHITE; BLACK].

(** [is_irreversible(move)] *)
Definition is_irreversible (b : Board) (m : Move) : bool :=
  is_zeroing b m || reduces_castling_rights b m || has_legal_en_passant b.

(** [_transposition_key()]: the pieces, the side to move, the castling
    rights that can still be used, and the en-passant square when a
    capture on it is legal *)
Definition transposition_key (b : Board)
    : list (option Piece) * Color * list Square * option Square :=
  (placement b, turn b, clean_castling_rights b,
   if has_legal_en_passant b then ep_square b else None).

(** The board that [pop] gives back for the stack entry [(_, s)] above
    [rest] *)
Definition board_before (s : BoardState) (rest : list (Move * BoardState)) : Board :=
  mkBoard (st_placement s) (st_turn s) (st_castling_rights s) (st_ep_square s)
          (st_halfmove_clock s) (st_fullmove_number s) rest.

(** The replay loop of [is_repetition]: the moves are taken back one by
    one until an irreversible one, and the positions met on the way that
    have the key of the current position are counted. *)
Fixpoint repetitions (key : list (option Piece) * Color * list Square * option Square)
    (stack : list (Move * BoardState)) : nat :=
  match stack with
  | [] => O
  | (m, s) :: rest =>
      let before := board_before s rest in
      if is_irreversible before m then O
      else
        let earlier := repetitions key rest in
        if bool_decide (transposition_key before = key) then S earlier else earlier
  end.

(** [is_repetition(count)] *)
Definition is_repetition (b : Board) (count : nat) : bool :=
  Nat.leb (count - 1) (repetitions (transposition_key b) (move_stack b)).

(** [is_game_over()]: checkmate, insufficient material, stalemate, the
    seventy-five-move rule and fivefold repetition *)
Definition is_game_over (b : Board) : bool :=
  is_checkmate b || is_insufficient_material b || bool_decide (legal_moves b = [])
  || (150 <=? halfmove_clock b)
  || is_repetition b 5.

End PyChess.

(** The reference implementation as a rules engine. *)
Definition py_chess : RulesEngine := {|
  legal_moves := PyChess.legal_moves;
  push := PyChess.push;
  pop := PyChess.pop;
  is_check := PyChess.is_check;
  is_checkmate := PyChess.is_checkmate;
  is_stalemate := PyChess.is_stalemate;
  is_insufficient_material := PyChess.is_insufficient_material;
  is_game_over := PyChess.is_game_over;
  is_capture := PyChess.is_capture;
  attacks := PyChess.attacks;
  attackers := PyChess.attackers;
  is_attacked_by := PyChess.is_attacked_by;
  has_castling_rights := PyChess.has_castling_rights |}.

(** ** Python numbers and loops *)

(** A Python [float] that may be infinite. *)
Inductive pyfloat := NegInf | Finite (q : Q) | PosInf.

Definition float_neg (x : pyfloat) : pyfloat :=
  match x with
  | NegInf => PosInf
  | Finite q => Finite (- q)
  | PosInf => NegInf
  end.

Definition float_abs (x : pyfloat) : pyfloat :=
  match x with
  | NegInf | PosInf => PosInf
  | Finite q => Finite (Qabs q)
  end.

(** [x < y] *)
Definition float_ltb (x y : pyfloat) : bool :=
  match x, y with
  | NegInf, NegInf => false
  | NegInf, _ => true
  | Finite _, NegInf => false
  | Finite p, Finite q => negb (Qle_bool q p)
  | Finite _, PosInf => true
  | PosInf, _ => false
  end.

(** [x <= y] *)
Definition float_leb (x y : pyfloat) : bool := negb (float_ltb y x).

Definition float_max (x y : pyfloat) : pyfloat := if float_ltb x y then y else x.
Definition float_min (x y : pyfloat) : pyfloat := if float_ltb y x then y else x.

(** [x * 0.8] *)
Definition float_mul_08 (x : pyfloat) : pyfloat :=
  match x with
  | NegInf => NegInf
  | Finite q => Finite (q * (8 # 10))
  | PosInf => PosInf
  end.

(** [range(start, stop, step)] *)
Definition py_range (start stop step : Z) : list Z :=
  if 0 <? step then
    List.map (fun i => start + Z.of_nat i * step)
             (seq 0 (Z.to_nat ((stop - start + step - 1) / step)))
  else if step <? 0 then
    List.map (fun i => start + Z.of_nat i * step)
             (seq 0 (Z.to_nat ((start - stop - step - 1) / (- step))))
  else [].

Definition range2 (start stop : Z) : list Z := py_range start stop 1.
Definition range1 (stop : Z) : list Z := py_range 0 stop 1.

Definition zlen {A} (l : list A) : Z := Z.of_nat (List.length l).

(** [sum] of integer terms and of float terms over a loop *)
Definition zsum {A} (f : A -> Z) (l : list A) : Z :=
  fold_left (fun acc x => acc + f x) l 0.
Definition qsum {A} (f : A -> Q) (l : list A) : Q :=
  fold_left (fun acc x => (acc + f x)%Q) l 0%Q.

(** [v if color else -v] *)
Definition signed (c : Color) (v : Z) : Z := if c then v else - v.
Definition qsigned (c : Color) (v : Q) : Q := if c then v else (- v)%Q.

#[global] Instance PieceType_countable : Countable PieceType.
Proof.
  refine (inj_countable'
            (fun t => match t with
                      | PAWN => 1 | KNIGHT => 2 | BISHOP => 3
                      | ROOK => 4 | QUEEN => 5 | KING => 6
                      end%positive)
            (fun n => match n with
                      | 1 => PAWN | 2 => KNIGHT | 3 => BISHOP
                      | 4 => ROOK | 5 => QUEEN | _ => KING
                      end%positive) _).
  intros []; reflexivity.
Defined.

(** ** [evaluation.py]: class [ChessEvaluator] *)

Definition PIECE_VALUES (pt : PieceType) : Z :=
  match pt with
  | PAWN => 100 | KNIGHT => 320 | BISHOP => 330
  | ROOK => 500 | QUEEN => 900 | KING => 20000
  end.

Definition PAWN_TABLE : list Z :=
  [ 0;  0;  0;  0;  0;  0;  0;  0;
   50; 50; 50; 50; 50; 50; 50; 50;
   10; 10; 20; 30; 30; 20; 10; 10;
    5;  5; 10; 25; 25; 10;  5;  5;
    0;  0;  0; 20; 20;  0;  0;  0;
    5; -5;-10;  0;  0;-10; -5;  5;
    5; 10; 10;-20;-20; 10; 10;  5;
    0;  0;  0;  0;  0;  0;  0;  0].

Definition KNIGHT_TABLE : list Z :=
  [-50;-40;-30;-30;-30;-30;-40;-50;
   -40;-20;  0;  0;  0;  0;-20;-40;
   -30;  0; 10; 15; 15; 10;  0;-30;
   -30;  5; 15; 20; 20; 15;  5;-30;
   -30;  0; 15; 20; 20; 15;  0;-30;
   -30;  5; 10; 15; 15; 10;  5;-30;
   -40;-20;  0;  5;  5;  0;-20;-40;
   -50;-40;-30;-30;-30;-30;-40;-50].

Definition BISHOP_TABLE : list Z :=
  [-20;-10;-10;-10;-10;-10;-10;-20;
   -10;  0;  0;  0;  0;  0;  0;-10;
   -10;  0;  5; 10; 10;  5;  0;-10;
   -10;  5;  5; 10; 10;  5;  5;-10;
   -10;  0; 10; 10; 10; 10;  0;-10;
   -10; 10; 10; 10; 10; 10; 10;-10;
   -10;  5;  0;  0;  0;  0;  5;-10;
   -20;-10;-10;-10;-10;-10;-10;-20].

Definition ROOK_TABLE : list Z :=
  [ 0;  0;  0;  5;  5;  0;  0;  0;
   -5;  0;  0;  0;  0;  0;  0; -5;
   -5;  0;  0;  0;  0;  0;  0; -5;
   -5;  0;  0;  0;  0;  0;  0; -5;
   -5;  0;  0;  0;  0;  0;  0; -5;
   -5;  0;  0;  0;  0;  0;  0; -5;
    5; 10; 10; 10; 10; 10; 10;  5;
    0;  0;  0;  0;  0;  0;  0;  0].

Definition QUEEN_TABLE : list Z :=
  [-20;-10;-10; -5; -5;-10;-10;-20;
   -10;  0;  0;  0;  0;  0;  0;-10;
   -10;  0;  5;  5;  5;  5;  0;-10;
    -5;  0;  5;  5;  5;  5;  0; -5;
     0;  0;  5;  5;  5;  5;  0; -5;
   -10;  5;  5;  5;  5;  5;  0;-10;
   -10;  0;  5;  0;  0;  0;  0;-10;
   -20;-10;-10; -5; -5;-10;-10;-20].

Definition KING_MIDDLEGAME_TABLE : list Z :=
  [-30;-40;-40;-50;-50;-40;-40;-30;
   -30;-40;-40;-50;-50;-40;-40;-30;
   -30;-40;-40;-50;-50;-40;-40;-30;
   -30;-40;-40;-50;-50;-40;-40;-30;
   -20;-30;-30;-40;-40;-30;-30;-20;
   -10;-20;-20;-20;-20;-20;-20;-10;
    20; 20;  0;  0;  0;  0; 20; 20;
    20; 30; 10;  0;  0; 10; 30; 20].

Definition KING_ENDGAME_TABLE : list Z :=
  [-50;-40;-30;-20;-20;-30;-40;-50;
   -30;-20;-10;  0;  0;-10;-20;-30;
   -30;-10; 20; 30; 30; 20;-10;-30;
   -30;-10; 30; 40; 40; 30;-10;-30;
   -30;-10; 30; 40; 40; 30;-10;-30;
   -30;-10; 20; 30; 30; 20;-10;-30;
   -30;-30;  0;  0;  0;  0;-30;-30;
   -50;-30;-30;-30;-30;-30;-30;-50].

(** The mutable part of a [ChessEvaluator] object: the dictionary
    [PIECE_POSITION_SCORES], whose [chess.KING] entry [evaluate] reassigns. *)
Record ChessEvaluator := mkEvaluator {
  PIECE_POSITION_SCORES : gmap PieceType (list Z) }.

(** [ChessEvaluator.__init__] *)
Definition ChessEvaluator_init : ChessEvaluator :=
  mkEvaluator
    (<[PAWN := PAWN_TABLE]> (<[KNIGHT := KNIGHT_TABLE]> (<[BISHOP := BISHOP_TABLE]>
     (<[ROOK := ROOK_TABLE]> (<[QUEEN := QUEEN_TABLE]>
     (<[KING := KING_MIDDLEGAME_TABLE]> ∅)))))).

Definition KING_SAFETY_WEIGHT : Q := 60.
Definition MOBILITY_WEIGHT : Q := 2 # 10.
Definition PAWN_STRUCTURE_WEIGHT : Q := 30.
Definition CENTER_CONTROL_WEIGHT : Q := 40.
Definition PIECE_ACTIVITY_WEIGHT : Q := 25.
Definition KING_ATTACK_WEIGHT : Q := 50.
Definition PIECE_COORDINATION_WEIGHT : Q := 15.

(** E4, E5, D4, D5 *)
Definition CENTER_SQUARES : list Square := [28; 36; 27; 35].
(** C3..F3, C4..F4, C5..F5, C6..F6 *)
Definition EXTENDED_CENTER : list Square :=
  [18; 19; 20; 21; 26; 27; 28; 29; 34; 35; 36; 37; 42; 43; 44; 45].

Section Evaluator.
Context {rules : RulesEngine}.

Definition is_pawn_of (board : Board) (sq : Square) (c : Color) : bool :=
  bool_decide (piece_at board sq = Some (mkPiece PAWN c)).

Definition _is_endgame (board : Board) : bool :=
  let material c :=
    zsum (fun pt => zlen (pieces board pt c) * PIECE_VALUES pt)
         [PAWN; KNIGHT; BISHOP; ROOK; QUEEN] in
  (material WHITE <? 1300) || (material BLACK <? 1300).

Definition _get_position_value (self : ChessEvaluator) (piece : Piece) (sq : Square) : Z :=
  match PIECE_POSITION_SCORES self !! piece_type piece with
  | Some table =>
      let position := if color piece then sq else square_mirror sq in
      nth (Z.to_nat position) table 0
  | None => 0
  end.

Definition _evaluate_material_and_position (self : ChessEvaluator) (board : Board) : Q :=
  let '(score, white_bishops, black_bishops) :=
    fold_left
      (fun '(score, wb, bb) sq =>
         match piece_at board sq with
         | None => (score, wb, bb)
         | Some piece =>
             let piece_value := PIECE_VALUES (piece_type piece) in
             let position_value := _get_position_value self piece sq in
             let piece_score := piece_value + position_value in
             let piece_score :=
               if negb (PieceType_eqb (piece_type piece) PAWN)
                  && negb (PieceType_eqb (piece_type piece) KING)
               then piece_score + zlen (attacks board sq) * 5
               else piece_score in
             let '(wb, bb) :=
               if PieceType_eqb (piece_type piece) BISHOP
               then (if color piece then (wb + 1, bb) else (wb, bb + 1))
               else (wb, bb) in
             (score + signed (color piece) piece_score, wb, bb)
         end)
      SQUARES (0, 0, 0) in
  let score := if 2 <=? white_bishops then score + 50 else score in
  let score := if 2 <=? black_bishops then score - 50 else score in
  inject_Z score.

Definition _evaluate_pawn_shield (board : Board) (king_square : Square) (c : Color) : Z :=
  let king_file := square_file king_square in
  let king_rank := square_rank king_square in
  let shield_ranks :=
    py_range (king_rank + (if c then 1 else -1)) (king_rank + (if c then 3 else -3))
             (if c then 1 else -1) in
  zsum
    (fun file =>
       zsum
         (fun rank =>
            if (0 <=? rank) && (rank <? 8) && is_pawn_of board (square file rank) c
            then 10 + (if file =? king_file then 5 else 0)
            else 0)
         shield_ranks)
    (range2 (Z.max 0 (king_file - 1)) (Z.min 8 (king_file + 2))).

(** The squares around a king, as both king-zone loops enumerate them *)
Definition king_zone (king_square : Square) : list Square :=
  let king_file := square_file king_square in
  let king_rank := square_rank king_square in
  flat_map
    (fun f => List.map (fun r => square f r)
                (range2 (Z.max 0 (king_rank - 1)) (Z.min 8 (king_rank + 2))))
    (range2 (Z.max 0 (king_file - 1)) (Z.min 8 (king_file + 2))).

Definition _evaluate_king_attackers (board : Board) (king_square : Square)
    (king_color : Color) : Q :=
  let attacking_color := negb king_color in
  qsum
    (fun sq =>
       match piece_at board sq with
       | Some piece =>
           if Bool.eqb (color piece) attacking_color
              && existsb (is_attacked_by board attacking_color) (king_zone king_square)
           then inject_Z (PIECE_VALUES (piece_type piece)) * (1 # 10)
           else 0
       | None => 0
       end%Q)
    SQUARES.

Definition _evaluate_king_open_files (board : Board) (king_square : Square) (c : Color) : Z :=
  let king_file := square_file king_square in
  zsum
    (fun file =>
       let has_friendly_pawn :=
         existsb (fun rank => is_pawn_of board (square file rank) c) (range1 8) in
       let has_enemy_pawn :=
         existsb (fun rank => is_pawn_of board (square file rank) (negb c)) (range1 8) in
       if negb has_friendly_pawn
       then 20 + (if negb has_enemy_pawn then 10 else 0)
       else 0)
    (range2 (Z.max 0 (king_file - 1)) (Z.min 8 (king_file + 2))).

Definition _evaluate_king_safety (board : Board) : Q :=
  qsum
    (fun c =>
       match king board c with
       | None => 0
       | Some king_square =>
           let shield_value := inject_Z (_evaluate_pawn_shield board king_square c) in
           let attacker_value := _evaluate_king_attackers board king_square c in
           let open_files_penalty :=
             inject_Z (_evaluate_king_open_files board king_square c) in
           qsigned c (shield_value - attacker_value - open_files_penalty)
       end%Q)
    [WHITE; BLACK].

Definition mobility_weight (pt : PieceType) : Z :=
  match pt with
  | PAWN => 1 | KNIGHT | BISHOP => 2 | ROOK => 3 | QUEEN => 4 | KING => 0
  end.

(** Assigns [board.turn] for each colour in turn, counts that side's legal
    moves, and assigns the original value back at the end.  The board is
    returned because it is the caller's object. *)
Definition _evaluate_mobility (board : Board) : Q * Board :=
  let original_turn := turn board in
  let '(score, board) :=
    fold_left
      (fun '(score, board) c =>
         let board := set_turn board c in
         let mobility :=
           zsum (fun move =>
                   match piece_at board (from_square move) with
                   | Some piece => mobility_weight (piece_type piece)
                   | None => 0
                   end)
                (legal_moves board) in
         ((score + inject_Z (signed c mobility))%Q, board))
      [WHITE; BLACK] (0%Q, board) in
  (score, set_turn board original_turn).

Definition occupancy_bonus (board : Board) (sq : Square) (pawn other : Z) : Z :=
  match piece_at board sq with
  | Some piece =>
      signed (color piece) (if PieceType_eqb (piece_type piece) PAWN then pawn else other)
  | None => 0
  end.

Definition _evaluate_center_control (board : Board) : Q :=
  let control weight pawn other sq :=
    (zlen (attackers board WHITE sq) - zlen (attackers board BLACK sq)) * weight
    + occupancy_bonus board sq pawn other in
  inject_Z (zsum (control 10 15 10) CENTER_SQUARES
            + zsum (control 5 7 5) EXTENDED_CENTER).

Definition _evaluate_piece_activity (board : Board) : Q :=
  inject_Z
    (zsum
       (fun sq =>
          match piece_at board sq with
          | None => 0
          | Some piece =>
              let development :=
                if negb (_is_endgame board)
                   && (PieceType_eqb (piece_type piece) KNIGHT
                       || PieceType_eqb (piece_type piece) BISHOP)
                then
                  if color piece
                  then (if 1 <? square_rank sq then 10 else 0)
                  else (if square_rank sq <? 6 then -10 else 0)
                else 0 in
              let piece_activity :=
                zlen (attacks board sq) * 2
                + zsum (fun center_square =>
                          if is_attacked_by board (color piece) center_square
                          then 5 else 0)
                       CENTER_SQUARES in
              development + signed (color piece) piece_activity
          end)
       SQUARES).

Definition _is_attacking_king_zone (board : Board) (sq king_square : Square) : bool :=
  match piece_at board sq with
  | Some piece => existsb (is_attacked_by board (color piece)) (king_zone king_square)
  | None => false
  end.

Definition _get_attack_weight (pt : PieceType) : Z :=
  match pt with
  | PAWN => 1 | KNIGHT => 3 | BISHOP => 3 | ROOK => 5 | QUEEN => 9 | KING => 0
  end.

Definition _evaluate_king_attack (board : Board) : Q :=
  qsum
    (fun c =>
       match king board (negb c) with
       | None => 0%Q
       | Some enemy_king_square =>
           let '(attack_value, attacker_count) :=
             fold_left
               (fun '(value, count) sq =>
                  match piece_at board sq with
                  | Some piece =>
                      if Bool.eqb (color piece) c
                         && _is_attacking_king_zone board sq enemy_king_square
                      then (value + _get_attack_weight (piece_type piece), count + 1)
                      else (value, count)
                  | None => (value, count)
                  end)
               SQUARES (0, 0) in
           let attack_value :=
             if 1 <? attacker_count
             then (inject_Z attack_value * (inject_Z attacker_count * (15 # 10)))%Q
             else inject_Z attack_value in
           qsigned c attack_value
       end)
    [WHITE; BLACK].

Definition _evaluate_bishop_pair (board : Board) : Z :=
  (if 2 <=? zlen (pieces board BISHOP WHITE) then 50 else 0)
  - (if 2 <=? zlen (pieces board BISHOP BLACK) then 50 else 0).

Definition _is_open_file (board : Board) (file : Z) : bool :=
  forallb
    (fun rank =>
       match piece_at board (square file rank) with
       | Some piece => negb (PieceType_eqb (piece_type piece) PAWN)
       | None => true
       end)
    (range1 8).

Definition _evaluate_rook_coordination (board : Board) : Z :=
  zsum
    (fun c =>
       let rook_squares := pieces board ROOK c in
       if 2 <=? zlen rook_squares then
         (if existsb
               (fun r1 => existsb
                            (fun r2 => negb (r1 =? r2)
                                       && (square_rank r1 =? square_rank r2))
                            rook_squares)
               rook_squares
          then signed c 20 else 0)
         + zsum (fun rook_square =>
                   if _is_open_file board (square_file rook_square)
                   then signed c 15 else 0)
                rook_squares
       else 0)
    [WHITE; BLACK].

Definition _evaluate_piece_protection (board : Board) : Q :=
  inject_Z
    (zsum
       (fun sq =>
          match piece_at board sq with
          | None => 0
          | Some piece =>
              let defenders := zlen (attackers board (color piece) sq) in
              if 0 <? defenders then signed (color piece) (defenders * 5) else 0
          end)
       SQUARES).

Definition _evaluate_piece_coordination (board : Board) : Q :=
  (0 + inject_Z (_evaluate_bishop_pair board)
     + inject_Z (_evaluate_rook_coordination board)
     + _evaluate_piece_protection board)%Q.

Definition _evaluate_king_centralization (board : Board) : Q :=
  inject_Z
    (zsum
       (fun c =>
          match king board c with
          | None => 0
          | Some king_square =>
              let file := square_file king_square in
              let rank := square_rank king_square in
              let file_distance := Z.min (Z.abs (file - 3)) (Z.abs (file - 4)) in
              let rank_distance := Z.min (Z.abs (rank - 3)) (Z.abs (rank - 4)) in
              signed c (7 - (file_distance + rank_distance))
          end)
       [WHITE; BLACK]).

Definition _is_passed_pawn (board : Board) (sq : Square) (c : Color) : bool :=
  let file := square_file sq in
  let rank := square_rank sq in
  let direction := if c then 1 else -1 in
  forallb
    (fun r =>
       forallb (fun f => negb (is_pawn_of board (square f r) (negb c)))
               (range2 (Z.max 0 (file - 1)) (Z.min 8 (file + 2))))
    (py_range (rank + direction) (if direction =? 1 then 8 else -1) direction).

Definition _evaluate_passed_pawns (board : Board) : Q :=
  inject_Z
    (zsum
       (fun sq =>
          match piece_at board sq with
          | Some piece =>
              if PieceType_eqb (piece_type piece) PAWN
                 && _is_passed_pawn board sq (color piece)
              then
                let rank := square_rank sq in
                signed (color piece)
                       (50 + (if color piece then rank else 7 - rank) * 10)
              else 0
          | None => 0
          end)
       SQUARES).

Definition _evaluate_pawn_chains (board : Board) : Z :=
  zsum
    (fun sq =>
       match piece_at board sq with
       | Some piece =>
           if PieceType_eqb (piece_type piece) PAWN then
             let file := square_file sq in
             let rank := square_rank sq in
             zsum
               (fun f =>
                  let protect_rank := if color piece then rank - 1 else rank + 1 in
                  if (0 <=? f) && (f <? 8) && (0 <=? protect_rank) && (protect_rank <? 8)
                     && is_pawn_of board (square f protect_rank) (color piece)
                  then signed (color piece) 10 else 0)
               [file - 1; file + 1]
           else 0
       | None => 0
       end)
    SQUARES.

(** The penalty line reads [score -= 20 if piece.color else 20]: the
    conditional expression is the amount, 20 for either colour. *)
Definition _evaluate_isolated_pawns (board : Board) : Z :=
  zsum
    (fun sq =>
       match piece_at board sq with
       | Some piece =>
           if PieceType_eqb (piece_type piece) PAWN then
             let file := square_file sq in
             let isolated :=
               negb (existsb
                       (fun f =>
                          (0 <=? f) && (f <? 8)
                          && existsb (fun r => is_pawn_of board (square f r) (color piece))
                                     (range1 8))
                       [file - 1; file + 1]) in
             if isolated then - (if color piece then 20 else 20) else 0
           else 0
       | None => 0
       end)
    SQUARES.

Definition _evaluate_doubled_pawns (board : Board) : Z :=
  zsum
    (fun file =>
       let white_pawns :=
         zlen (List.filter (fun rank => is_pawn_of board (square file rank) WHITE) (range1 8)) in
       let black_pawns :=
         zlen (List.filter (fun rank => is_pawn_of board (square file rank) BLACK) (range1 8)) in
       (if 1 <? white_pawns then - ((white_pawns - 1) * 15) else 0)
       + (if 1 <? black_pawns then (black_pawns - 1) * 15 else 0))
    (range1 8).

Definition _evaluate_pawn_structure (board : Board) : Q :=
  inject_Z (_evaluate_pawn_chains board + _evaluate_isolated_pawns board
            + _evaluate_doubled_pawns board).

(** [evaluate]: the score, the evaluator after the call (its king table
    reassigned) and the board after the call. *)
Definition evaluate (self : ChessEvaluator) (board : Board)
    : pyfloat * ChessEvaluator * Board :=
  if is_checkmate board then
    (if turn board then NegInf else PosInf, self, board)
  else if is_stalemate board || is_insufficient_material board then
    (Finite 0, self, board)
  else
    let is_endgame := _is_endgame board in
    let self :=
      mkEvaluator
        (<[KING := if is_endgame then KING_ENDGAME_TABLE else KING_MIDDLEGAME_TABLE]>
           (PIECE_POSITION_SCORES self)) in
    let score := (0 + _evaluate_material_and_position self board)%Q in
    let '(score, board) :=
      if is_endgame then
        let score := (score + _evaluate_king_centralization board * 50)%Q in
        let score := (score + _evaluate_passed_pawns board * 40)%Q in
        let '(mobility, board) := _evaluate_mobility board in
        ((score + mobility * (3 # 10))%Q, board)
      else
        let score := (score + _evaluate_king_safety board * KING_SAFETY_WEIGHT)%Q in
        let '(mobility, board) := _evaluate_mobility board in
        let score := (score + mobility * MOBILITY_WEIGHT)%Q in
        let score := (score + _evaluate_pawn_structure board * PAWN_STRUCTURE_WEIGHT)%Q in
        let score := (score + _evaluate_center_control board * CENTER_CONTROL_WEIGHT)%Q in
        let score := (score + _evaluate_piece_activity board * PIECE_ACTIVITY_WEIGHT)%Q in
        let score := (score + _evaluate_king_attack board * KING_ATTACK_WEIGHT)%Q in
        let score :=
          (score + _evaluate_piece_coordination board * PIECE_COORDINATION_WEIGHT)%Q in
        (score, board) in
    let score := if has_castling_rights board WHITE then (score + 30)%Q else score in
    let score := if has_castling_rights board BLACK then (score - 30)%Q else score in
    (Finite (if turn board then score else (- score)%Q), self, board).

End Evaluator.

(** ** [chess_engine.py]: class [ChessEngine] *)

Inductive exn := TimeoutError | AttributeError | KeyError.

Inductive result (A : Type) :=
  | Return (a : A)
  | Raise (e : exn).
Arguments Return {A} a.
Arguments Raise {A} e.

(** The attributes of a [ChessEngine] object *)
Record ChessEngine := mkEngine {
  depth : Z;
  time_limit : Q;
  evaluator : ChessEvaluator;
  start_time : Q;
  position_history : gmap string Z }.

(** [ChessEngine.__init__] *)
Definition ChessEngine_init (depth : Z) (time_limit : Q) : ChessEngine :=
  mkEngine depth time_limit ChessEvaluator_init 0 ∅.

(** Everything a method call can read or change: the engine object, the
    board object the caller passed in, and how many times the clock has
    been read. *)
Record World := mkWorld {
  w_engine : ChessEngine;
  w_board : Board;
  w_ticks : nat }.

(** A computation that may raise and that keeps the state it reached. *)
Definition M (A : Type) : Type := World -> result A * World.

Definition ret {A} (a : A) : M A := fun w => (Return a, w).
Definition raise {A} (e : exn) : M A := fun w => (Raise e, w).
Definition bind {A B} (c : M A) (k : A -> M B) : M B :=
  fun w =>
    match c w with
    | (Return a, w') => k a w'
    | (Raise e, w') => (Raise e, w')
    end.

(** [try: c  except TimeoutError: handler; raise] *)
Definition on_timeout_reraise {A} (c : M A) (handler : M unit) : M A :=
  fun w =>
    match c w with
    | (Raise TimeoutError, w') =>
        match handler w' with
        | (Return _, w'') => (Raise TimeoutError, w'')
        | (Raise e, w'') => (Raise e, w'')
        end
    | other => other
    end.

(** [try: c  except TimeoutError: pass]: what [c] returned, if it
    returned *)
Definition swallow_timeout {A} (c : M A) : M (option A) :=
  fun w =>
    match c w with
    | (Return a, w') => (Return (Some a), w')
    | (Raise TimeoutError, w') => (Return None, w')
    | (Raise e, w') => (Raise e, w')
    end.

Declare Scope engine_scope.
Delimit Scope engine_scope with engine.
Notation "x <- c ;; k" := (bind c (fun x => k))
  (at level 100, c at next level, right associativity) : engine_scope.
Notation "c ;; k" := (bind c (fun _ => k))
  (at level 100, right associativity) : engine_scope.
Open Scope engine_scope.

Definition get_board : M Board := fun w => (Return (w_board w), w).
Definition modify_board (f : Board -> Board) : M unit :=
  fun w => (Return tt, mkWorld (w_engine w) (f (w_board w)) (w_ticks w)).
Definition get_self : M ChessEngine := fun w => (Return (w_engine w), w).
Definition modify_self (f : ChessEngine -> ChessEngine) : M unit :=
  fun w => (Return tt, mkWorld (f (w_engine w)) (w_board w) (w_ticks w)).

Definition set_start_time (t : Q) (e : ChessEngine) : ChessEngine :=
  mkEngine (depth e) (time_limit e) (evaluator e) t (position_history e).
Definition set_position_history (h : gmap string Z) (e : ChessEngine) : ChessEngine :=
  mkEngine (depth e) (time_limit e) (evaluator e) (start_time e) h.
Definition set_evaluator (ev : ChessEvaluator) (e : ChessEngine) : ChessEngine :=
  mkEngine (depth e) (time_limit e) ev (start_time e) (position_history e).

(** [x > 500] for a float [x] *)
Definition gt_500 (x : pyfloat) : bool := float_ltb (Finite 500) x.

(** [bool(move)]: only the null move is falsy *)
Definition move_truthy (m : Move) : bool :=
  negb ((from_square m =? 0) && (to_square m =? 0)
        && bool_decide (promotion m = None)).

(** [move_scores.sort(key=lambda x: x[1], reverse=True)]: descending and
    stable *)
Fixpoint insert_desc (x : Move * Q) (l : list (Move * Q)) : list (Move * Q) :=
  match l with
  | [] => [x]
  | y :: l' =>
      if Qle_bool (snd y) (snd x) then x :: y :: l'
      else y :: insert_desc x l'
  end.

Definition sort_desc (l : list (Move * Q)) : list (Move * Q) :=
  fold_right insert_desc [] l.

Section Engine.
Context {rules : RulesEngine}.

(** [time.time()]: the reading returned by the [n]-th call *)
Variable time_time : nat -> Q.

(** What looking up the attribute [_evaluate_piece_defense] on
    [self.evaluator] gives: [None] when the object has no such attribute,
    the method otherwise.  The method is taken to read the board only. *)
Variable evaluator_piece_defense : option (Board -> Q).

Definition time_now : M Q :=
  fun w => (Return (time_time (w_ticks w)),
            mkWorld (w_engine w) (w_board w) (S (w_ticks w))).

(** [self.evaluator.evaluate(board)] on the shared evaluator and board *)
Definition call_evaluate : M pyfloat :=
  fun w =>
    let '(v, ev, b) := evaluate (evaluator (w_engine w)) (w_board w) in
    (Return v, mkWorld (set_evaluator ev (w_engine w)) b (w_ticks w)).

(** [self.evaluator._evaluate_piece_defense(board)] *)
Definition call_piece_defense : M Q :=
  match evaluator_piece_defense with
  | None => raise AttributeError
  | Some method => board <- get_board ;; ret (method board)
  end.

(** Lines 34-38 of [order_moves]: the loop over the opponent's replies to
    a check. *)
Fixpoint reply_penalties (moving_piece : option Piece) (opponent_moves : list Move)
    (score : Q) : M Q :=
  match opponent_moves with
  | [] => ret score
  | opponent_move :: rest =>
      modify_board (fun b => push b opponent_move) ;;
      board <- get_board ;;
      let score :=
        if is_capture board opponent_move
           && bool_decide (piece_at board (to_square opponent_move) = moving_piece)
        then (score - 100)%Q else score in
      modify_board pop ;;
      reply_penalties moving_piece rest score
  end.

(** Lines 23-39 of [order_moves]: what the look-ahead for mate and check
    adds to the score of [move]. *)
Definition check_score (move : Move) (moving_piece : option Piece) : M Q :=
  modify_board (fun b => push b move) ;;
  board <- get_board ;;
  score <-
    (if is_checkmate board then ret 10000%Q
     else if is_check board then
       let score := 30%Q in
       v <- call_evaluate ;;
       let score := if gt_500 v then (score + 50)%Q else score in
       board <- get_board ;;
       let opponent_moves := legal_moves board in
       reply_penalties moving_piece opponent_moves score
     else ret 0%Q) ;;
  modify_board pop ;;
  ret score.

(** Lines 56-61: the repetition penalty *)
Definition repetition_score (move : Move) : M Q :=
  modify_board (fun b => push b move) ;;
  board <- get_board ;;
  self <- get_self ;;
  let pos_hash := board_fen board in
  penalised <-
    (if bool_decide (is_Some (position_history self !! pos_hash))
     then v <- call_evaluate ;; ret (gt_500 v)
     else ret false) ;;
  modify_board pop ;;
  ret (if penalised then (- 400)%Q else 0%Q).

(** Lines 63-67: the defence term *)
Definition defense_score (move : Move) : M Q :=
  modify_board (fun b => push b move) ;;
  defense_score <- call_piece_defense ;;
  modify_board pop ;;
  ret defense_score.

(** The body of the loop of [order_moves]: the score of one move *)
Definition move_score (move : Move) : M Q :=
  board <- get_board ;;
  let moving_piece := piece_at board (from_square move) in
  let captured_piece := piece_at board (to_square move) in
  score <- check_score move moving_piece ;;
  score <-
    match captured_piece with
    | Some captured =>
        match moving_piece with
        | Some moving =>
            ret (score + inject_Z (10 * PIECE_VALUES (piece_type captured)
                                   - PIECE_VALUES (piece_type moving)))%Q
        | None => raise AttributeError
        end
    | None => ret score
    end ;;
  let score := match promotion move with Some _ => (score + 800)%Q | None => score end in
  let to_rank := square_rank (to_square move) in
  let to_file := square_file (to_square move) in
  let center_distance :=
    (Qabs ((35 # 10) - inject_Z to_file) + Qabs ((35 # 10) - inject_Z to_rank))%Q in
  let score := (score - center_distance * 10)%Q in
  penalty <- repetition_score move ;;
  let score := (score + penalty)%Q in
  defense <- defense_score move ;;
  ret (score + defense)%Q.

Fixpoint score_moves (moves : list Move) : M (list (Move * Q)) :=
  match moves with
  | [] => ret []
  | move :: rest =>
      score <- move_score move ;;
      move_scores <- score_moves rest ;;
      ret ((move, score) :: move_scores)
  end.

Definition order_moves (moves : list Move) : M (list Move) :=
  move_scores <- score_moves moves ;;
  ret (List.map fst (sort_desc move_scores)).

Definition is_time_up : M bool :=
  now <- time_now ;;
  self <- get_self ;;
  ret (negb (Qle_bool (now - start_time self) (time_limit self))).

(** [pos_hash in self.position_history] *)
Definition seen (h : gmap string Z) (pos_hash : string) : bool :=
  bool_decide (is_Some (h !! pos_hash)).

(** The leaf of [alpha_beta], lines 85-90 *)
Definition leaf_value : M (pyfloat * option Move) :=
  eval_score <- call_evaluate ;;
  board <- get_board ;;
  self <- get_self ;;
  let pos_hash := board_fen board in
  let eval_score :=
    if seen (position_history self) pos_hash && gt_500 (float_abs eval_score)
    then float_mul_08 eval_score else eval_score in
  ret (eval_score, None).

(** Lines 99-110 (and 122-133): enter the child, search it, leave it. *)
Definition search_child (move : Move) (child : M (pyfloat * option Move)) : M pyfloat :=
  modify_board (fun b => push b move) ;;
  board <- get_board ;;
  let pos_hash := board_fen board in
  modify_self (fun e =>
    set_position_history
      (<[pos_hash := default 0 (position_history e !! pos_hash) + 1]> (position_history e)) e) ;;
  r <- on_timeout_reraise child (modify_board pop) ;;
  let eval := fst r in
  self <- get_self ;;
  match position_history self !! pos_hash with
  | None => raise KeyError
  | Some n =>
      modify_self (set_position_history (<[pos_hash := n - 1]> (position_history self))) ;;
      modify_board pop ;;
      ret eval
  end.

(** [alpha_beta].  [depth] counts down by one per level to the leaf at 0;
    the engine calls it with depths from 1 up, so it is a natural number
    here. *)
Fixpoint alpha_beta (depth : nat) (alpha beta : pyfloat) (maximizing_player : bool)
    : M (pyfloat * option Move) :=
  up <- is_time_up ;;
  if up : bool then raise TimeoutError else
  board <- get_board ;;
  match depth with
  | O => leaf_value
  | S depth' =>
      if is_game_over board then leaf_value else
      let moves := legal_moves board in
      ordered_moves <- order_moves moves ;;
      if maximizing_player then
        (fix loop (l : list Move) (max_eval : pyfloat) (best_move : option Move)
                  (alpha : pyfloat) : M (pyfloat * option Move) :=
           match l with
           | [] => ret (max_eval, best_move)
           | move :: l' =>
               eval <- search_child move (alpha_beta depth' alpha beta false) ;;
               let '(max_eval, best_move) :=
                 if float_ltb max_eval eval then (eval, Some move)
                 else (max_eval, best_move) in
               let alpha := float_max alpha eval in
               if float_leb beta alpha then ret (max_eval, best_move)
               else loop l' max_eval best_move alpha
           end) ordered_moves NegInf None alpha
      else
        (fix loop (l : list Move) (min_eval : pyfloat) (best_move : option Move)
                  (beta : pyfloat) : M (pyfloat * option Move) :=
           match l with
           | [] => ret (min_eval, best_move)
           | move :: l' =>
               eval <- search_child move (alpha_beta depth' alpha beta true) ;;
               let '(min_eval, best_move) :=
                 if float_ltb eval min_eval then (eval, Some move)
                 else (min_eval, best_move) in
               let beta := float_min beta eval in
               if float_leb beta alpha then ret (min_eval, best_move)
               else loop l' min_eval best_move beta
           end) ordered_moves PosInf None beta
  end.

(** The [while] loop of [iterative_deepening] inside its [try] block.
    Each round raises [current_depth] by one and the loop stops when it
    passes [self.depth], so [fuel = self.depth] rounds are always enough.
    A [TimeoutError] leaves the block with [best_move] as the completed
    rounds assigned it. *)
Fixpoint deepening_loop (fuel : nat) (current_depth : Z) (best_move : option Move)
    : M (option Move) :=
  match fuel with
  | O => ret best_move
  | S fuel' =>
      self <- get_self ;;
      if current_depth <=? depth self then
        up <- is_time_up ;;
        if up : bool then ret best_move else
        r <- swallow_timeout (alpha_beta (Z.to_nat current_depth) NegInf PosInf true) ;;
        match r with
        | None => ret best_move
        | Some (_, move) =>
            let best_move :=
              match move with
              | Some m => if move_truthy m then Some m else best_move
              | None => best_move
              end in
            deepening_loop fuel' (current_depth + 1) best_move
        end
      else ret best_move
  end.

Definition iterative_deepening : M (option Move) :=
  self <- get_self ;;
  deepening_loop (Z.to_nat (depth self)) 1 None.

(** [get_best_move].  The line printed before returning reads the clock a
    second time and changes nothing else. *)
Definition get_best_move : M (option Move) :=
  now <- time_now ;;
  modify_self (set_start_time now) ;;
  modify_self (set_position_history ∅) ;;
  best_move <- iterative_deepening ;;
  end_time <- time_now ;;
  ret best_move.

End Engine.

(** ** The engine as shipped, and the positions used below *)

(** [ChessEvaluator] defines no attribute named [_evaluate_piece_defense]
    ([evaluation.py] names its method [_evaluate_piece_protection]), and
    nothing assigns one; on the evaluator that [ChessEngine.__init__]
    creates the lookup at line 65 of [chess_engine.py] fails. *)
Definition shipped_piece_defense : option (Board -> Q) := None.

(** White king e1 and queen d1 against the bare king on e8, White to move *)
Definition queen_ending : Board :=
  board_of_fen "4k3/8/8/8/8/8/8/3QK3" WHITE [] None 0 1.

(** Black king h8 mated by the queen on g7 that the king on g6 guards *)
Definition black_mated : Board :=
  board_of_fen "7k/6Q1/6K1/8/8/8/8/8" BLACK [] None 0 1.

(** d1-d8, check from the queen next to the king *)
Definition queen_check : Move := mkMove 3 59 None.
(** e8xd8, the king takes the checking queen *)
Definition king_takes_queen : Move := mkMove 60 59 None.

(** A clock that advances one second per reading *)
Definition ticking_clock (n : nat) : Q := inject_Z (Z.of_nat n).
(** A clock whose readings do not change *)
Definition stalled_clock (n : nat) : Q := 0.
(** A fresh engine about to be asked for a move on [board] *)
Definition fresh_world (depth : Z) (time_limit : Q) (board : Board) : World :=
  mkWorld (ChessEngine_init depth time_limit) board 0.

(** The score, of the three things [evaluate] gives back *)
Definition evaluate_score {rules : RulesEngine} (self : ChessEvaluator) (board : Board)
    : pyfloat :=
  fst (fst (evaluate self board)).

(** The evaluator object after it has scored each of [others] in turn *)
Definition evaluator_after {rules : RulesEngine} (self : ChessEvaluator)
    (others : list Board) : ChessEvaluator :=
  fold_left (fun ev b => snd (fst (evaluate ev b))) others self.

(** [c] returns, whatever the state it starts from. *)
Definition returns {A} (c : M A) : Prop :=
  forall w, exists a w', c w = (Return a, w').

(** [c] either returns or raises [e]. *)
Definition returns_or_raises {A} (e : exn) (c : M A) : Prop :=
  forall w, (exists a w', c w = (Return a, w')) \/ (exists w', c w = (Raise e, w')).

(** [is_time_up] would answer [False] in state [w]. *)
Definition in_time (time_time : nat -> Q) (w : World) : Prop :=
  Qle_bool (time_time (w_ticks w) - start_time (w_engine w))
           (time_limit (w_engine w)) = true.

(** Two evaluator objects whose tables differ at most in the king's *)
Definition same_off_king (s1 s2 : ChessEvaluator) : Prop :=
  forall pt, pt <> KING -> PIECE_POSITION_SCORES s1 !! pt = PIECE_POSITION_SCORES s2 !! pt.

(** Two histories give every placement the same count, an absent key
    counting as zero. *)
Definition same_counts (h h' : gmap string Z) : Prop :=
  forall fp, default 0 (h !! fp) = default 0 (h' !! fp).

(** The board is [b] and the history has the counts of [h]. *)
Definition frame_is (b : Board) (h : gmap string Z) (w : World) : Prop :=
  w_board w = b /\ same_counts h (position_history (w_engine w)).

(** Started in a state where [P] holds, [c] either returns [a] in a state
    where [Q a] holds, or is cut off by the deadline in a state where [T]
    holds, or raises some other error. *)
Definition triple {A} (P : World -> Prop) (c : M A) (Q : A -> World -> Prop)
    (T : World -> Prop) : Prop :=
  forall w, P w ->
    match c w with
    | (Return a, w') => Q a w'
    | (Raise TimeoutError, w') => T w'
    | (Raise _, _) => True
    end.

(** [c], started in [w], raises [AttributeError] and leaves the board [B]. *)
Definition fails_leaving {A} (c : M A) (w : World) (B : Board) : Prop :=
  exists w', c w = (Raise AttributeError, w') /\ w_board w' = B.

(** ** [chess_gui.py]: the two coordinate helpers of [ChessGUI]

    [SQUARE_SIZE] comes from [constants.py], which is not part of the
    sources at hand, so it is a parameter here.  [//] on a zero
    [SQUARE_SIZE] raises [ZeroDivisionError]: no square is returned. *)
Section Gui.
Variable SQUARE_SIZE : Z.

Definition get_square_from_pos (pos : Z * Z) : option Square :=
  let '(x, y) := pos in
  if SQUARE_SIZE =? 0 then None else
  let file := x / SQUARE_SIZE in
  let rank := 7 - (y / SQUARE_SIZE) in
  Some (square file rank).

Definition get_pos_from_square (sq : Square) : Z * Z :=
  let file := square_file sq in
  let rank := 7 - square_rank sq in
  (file * SQUARE_SIZE, rank * SQUARE_SIZE).

End Gui.

(** [c] leaves the position history as it found it, however it ends. *)
Definition keeps_history {A} (c : M A) : Prop :=
  forall w, position_history (w_engine (snd (c w))) = position_history (w_engine w).

(** The engine objects the program holds: the one [ChessEngine.__init__]
    builds, and the one a request for a move leaves behind, whatever the
    board, the clock and the way the request ends. *)
Inductive served {rules : RulesEngine} : ChessEngine -> Prop :=
  | served_new depth time_limit : served (ChessEngine_init depth time_limit)
  | served_request (time_time : nat -> Q) e board ticks :
      served e ->
      served (w_engine (snd (get_best_move time_time shipped_piece_defense
                               (mkWorld e board ticks)))).

(** ** The leaf as the specification words it

    The specification dampens a leaf whose fingerprint "has a non-zero
    occurrence count" in the history; the code asks whether the
    fingerprint is a key.  Below is the search with that one test worded
    as the specification words it, to be compared with the code's. *)

(** The fingerprint has a non-zero occurrence count, an absent one
    counting as zero. *)
Definition counted (h : gmap string Z) (pos_hash : string) : bool :=
  negb (default 0 (h !! pos_hash) =? 0).

Section CountedLeaf.
Context {rules : RulesEngine}.
Variable time_time : nat -> Q.
Variable evaluator_piece_defense : option (Board -> Q).

Definition leaf_value_counted : M (pyfloat * option Move) :=
  eval_score <- call_evaluate ;;
  board <- get_board ;;
  self <- get_self ;;
  let pos_hash := board_fen board in
  let eval_score :=
    if counted (position_history self) pos_hash && gt_500 (float_abs eval_score)
    then float_mul_08 eval_score else eval_score in
  ret (eval_score, None).

Fixpoint alpha_beta_counted (depth : nat) (alpha beta : pyfloat) (maximizing_player : bool)
    : M (pyfloat * option Move) :=
  up <- is_time_up time_time ;;
  if up : bool then raise TimeoutError else
  board <- get_board ;;
  match depth with
  | O => leaf_value_counted
  | S depth' =>
      if is_game_over board then leaf_value_counted else
      let moves := legal_moves board in
      ordered_moves <- order_moves evaluator_piece_defense moves ;;
      if maximizing_player then
        (fix loop (l : list Move) (max_eval : pyfloat) (best_move : option Move)
                  (alpha : pyfloat) : M (pyfloat * option Move) :=
           match l with
           | [] => ret (max_eval, best_move)
           | move :: l' =>
               eval <- search_child move (alpha_beta_counted depth' alpha beta false) ;;
               let '(max_eval, best_move) :=
                 if float_ltb max_eval eval then (eval, Some move)
                 else (max_eval, best_move) in
               let alpha := float_max alpha eval in
               if float_leb beta alpha then ret (max_eval, best_move)
               else loop l' max_eval best_move alpha
           end) ordered_moves NegInf None alpha
      else
        (fix loop (l : list Move) (min_eval : pyfloat) (best_move : option Move)
                  (beta : pyfloat) : M (pyfloat * option Move) :=
           match l with
           | [] => ret (min_eval, best_move)
           | move :: l' =>
               eval <- search_child move (alpha_beta_counted depth' alpha beta true) ;;
               let '(min_eval, best_move) :=
                 if float_ltb eval min_eval then (eval, Some move)
                 else (min_eval, best_move) in
               let beta := float_min beta eval in
               if float_leb beta alpha then ret (min_eval, best_move)
               else loop l' min_eval best_move beta
           end) ordered_moves PosInf None beta
  end.

Fixpoint deepening_loop_counted (fuel : nat) (current_depth : Z) (best_move : option Move)
    : M (option Move) :=
  match fuel with
  | O => ret best_move
  | S fuel' =>
      self <- get_self ;;
      if current_depth <=? depth self then
        up <- is_time_up time_time ;;
        if up : bool then ret best_move else
        r <- swallow_timeout
               (alpha_beta_counted (Z.to_nat current_depth) NegInf PosInf true) ;;
        match r with
        | None => ret best_move
        | Some (_, move) =>
            let best_move :=
              match move with
              | Some m => if move_truthy m then Some m else best_move
              | None => best_move
              end in
            deepening_loop_counted fuel' (current_depth + 1) best_move
        end
      else ret best_move
  end.

Definition get_best_move_counted : M (option Move) :=
  now <- time_now time_time ;;
  modify_self (set_start_time now) ;;
  modify_self (set_position_history ∅) ;;
  best_move <- (self <- get_self ;;
                deepening_loop_counted (Z.to_nat (depth self)) 1 None) ;;
  end_time <- time_now time_time ;;
  ret best_move.

End CountedLeaf.

(** No count of the history is negative. *)
Definition counts_nonneg (h : gmap string Z) : Prop :=
  forall fp n, h !! fp = Some n -> 0 <= n.

(** The history has no entry for the position on the board, as at the
    root of a request, or one with a count of at least one, as in a child
    that the search has entered. *)
Definition fresh_or_entered (w : World) : Prop :=
  match position_history (w_engine w) !! board_fen (w_board w) with
  | None => True
  | Some n => 1 <= n
  end.

(** A pawn is isolated when neither neighbouring file holds a pawn of its
    colour. *)
Definition isolated_pawn (board : Board) (sq : Square) : Prop :=
  exists c,
    piece_at board sq = Some (mkPiece PAWN c)
    /\ forall f r,
         f = square_file sq - 1 \/ f = square_file sq + 1 ->
         0 <= f < 8 -> 0 <= r < 8 ->
         piece_at board (square f r) <> Some (mkPiece PAWN c).

(** * Properties *)

(** ** The monad of the engine *)

Lemma returns_ret {A} (a : A) : returns (ret a).
Proof. intros w. exists a, w. reflexivity. Qed.

Lemma returns_bind {A B} (c : M A) (k : A -> M B) :
  returns c -> (forall a, returns (k a)) -> returns (bind c k).
Proof.
  intros Hc Hk w. unfold bind.
  destruct (Hc w) as (a & w' & ->). apply Hk.
Qed.

Lemma returns_get_board : returns get_board.
Proof. intros w. eexists _, _. reflexivity. Qed.

Lemma returns_get_self : returns get_self.
Proof. intros w. eexists _, _. reflexivity. Qed.

Lemma returns_modify_board f : returns (modify_board f).
Proof. intros w. eexists _, _. reflexivity. Qed.

Lemma returns_modify_self f : returns (modify_self f).
Proof. intros w. eexists _, _. reflexivity. Qed.

Lemma returns_weaken {A} e (c : M A) : returns c -> returns_or_raises e c.
Proof. intros Hc w. left. apply Hc. Qed.

Lemma bind_raises {A B} e (c : M A) (k : A -> M B) :
  returns_or_raises e c ->
  (forall a w, fst (k a w) = Raise e) ->
  forall w, fst (bind c k w) = Raise e.
Proof.
  intros Hc Hk w. unfold bind.
  destruct (Hc w) as [(a & w' & ->) | (w' & ->)]; [apply Hk | reflexivity].
Qed.

Create HintDb returns.
Lemma raise_bind {A B} e (c : M A) (k : A -> M B) w :
  fst (c w) = Raise e -> fst (bind c k w) = Raise e.
Proof.
  unfold bind. destruct (c w) as [[a|e'] w']; cbn; [discriminate | congruence].
Qed.

Lemma raise_swallow {A} e (c : M A) w :
  e <> TimeoutError -> fst (c w) = Raise e -> fst (swallow_timeout c w) = Raise e.
Proof.
  unfold swallow_timeout. intros He.
  destruct (c w) as [[a|e'] w']; cbn; [discriminate|].
  intros [= ->]. destruct e; [congruence | reflexivity | reflexivity].
Qed.

#[local] Hint Resolve returns_ret returns_get_board returns_get_self
  returns_modify_board returns_modify_self : returns.

Ltac returns_step :=
  repeat first
    [ solve [ auto with returns ]
    | apply returns_bind; [ | intros ? ]
    | match goal with
      | |- returns (if ?c then _ else _) => destruct c
      | |- returns (match ?x with Some _ => _ | None => _ end) => destruct x
      end ].

Section EngineFacts.
Context {rules : RulesEngine}.
Variable time_time : nat -> Q.

Lemma returns_call_evaluate : returns call_evaluate.
Proof.
  intros w. unfold call_evaluate.
  destruct (evaluate (evaluator (w_engine w)) (w_board w)) as [[v ev] b].
  eexists _, _. reflexivity.
Qed.

Lemma returns_time_now : returns (time_now time_time).
Proof. intros w. eexists _, _. reflexivity. Qed.

#[local] Hint Resolve returns_call_evaluate returns_time_now : returns.

Lemma returns_is_time_up : returns (is_time_up time_time).
Proof. unfold is_time_up. returns_step. Qed.

Lemma is_time_up_open (w : World) :
  Qle_bool (time_time (w_ticks w) - start_time (w_engine w))
           (time_limit (w_engine w)) = true ->
  is_time_up time_time w
  = (Return false, mkWorld (w_engine w) (w_board w) (S (w_ticks w))).
Proof.
  intros H. unfold is_time_up, bind, time_now, get_self, ret. cbn. rewrite H.
  reflexivity.
Qed.

(** *** [order_moves] *)

Lemma returns_reply_penalties moving_piece l :
  forall score, returns (reply_penalties moving_piece l score).
Proof.
  induction l as [|r l IH]; intros score; cbn [reply_penalties]; returns_step.
Qed.

Lemma returns_check_score move moving_piece : returns (check_score move moving_piece).
Proof.
  unfold check_score. returns_step. cbn zeta. apply returns_reply_penalties.
Qed.

Lemma returns_repetition_score move : returns (repetition_score move).
Proof. unfold repetition_score. returns_step. Qed.

#[local] Hint Resolve returns_check_score returns_repetition_score : returns.

Lemma defense_score_raises move w :
  fst (defense_score shipped_piece_defense move w) = Raise AttributeError.
Proof. reflexivity. Qed.

Lemma move_score_raises move w :
  fst (move_score shipped_piece_defense move w) = Raise AttributeError.
Proof.
  revert w. unfold move_score.
  apply bind_raises; [apply returns_weaken; returns_step | intros board w].
  revert w. apply bind_raises; [apply returns_weaken; returns_step | intros s1 w].
  revert w. apply bind_raises.
  - intros w. destruct (piece_at board (to_square move)); [ | left; apply returns_ret ].
    destruct (piece_at board (from_square move)); [ left; apply returns_ret | ].
    right. eexists. reflexivity.
  - intros s2 w. revert w.
    apply bind_raises; [apply returns_weaken; returns_step | intros p w].
    apply raise_bind, defense_score_raises.
Qed.

Lemma score_moves_fails (move : Move) (rest : list Move) (w : World) :
  fst (score_moves shipped_piece_defense (move :: rest) w) = Raise AttributeError.
Proof. cbn [score_moves]. apply raise_bind, move_score_raises. Qed.

Lemma order_moves_fails (move : Move) (rest : list Move) (w : World) :
  fst (order_moves shipped_piece_defense (move :: rest) w) = Raise AttributeError.
Proof. unfold order_moves. apply raise_bind, score_moves_fails. Qed.

(** C2 (code as it is): [order_moves] does not produce a score for any
    move.  The defence term is asked of [_evaluate_piece_defense], which the
    evaluator does not have, so scoring the first move of any non-empty
    list, on any board, raises [AttributeError] instead of adding the
    piece-protection sub-score of the position after the move. *)
Theorem order_moves_raises_AttributeError (move : Move) (rest : list Move) (w : World) :
  fst (move_score shipped_piece_defense move w) = Raise AttributeError
  /\ fst (order_moves shipped_piece_defense (move :: rest) w) = Raise AttributeError.
Proof. split; [apply move_score_raises | apply order_moves_fails]. Qed.

(** With an evaluator that answers [_evaluate_piece_defense] by the
    piece-protection method, the defence term is that sub-score on the
    position after the move. *)
Lemma defense_score_with_protection (move : Move) (w : World) :
  fst (defense_score (Some _evaluate_piece_protection) move w)
  = Return (_evaluate_piece_protection (push (w_board w) move)).
Proof. reflexivity. Qed.

(** A search of depth at least one on a position that is not over and has
    a legal move fails in the same way, unless the deadline has passed. *)
Lemma alpha_beta_raises_AttributeError depth alpha beta maximizing w :
  in_time time_time w ->
  is_game_over (w_board w) = false ->
  legal_moves (w_board w) <> [] ->
  fst (alpha_beta time_time shipped_piece_defense (S depth) alpha beta maximizing w)
  = Raise AttributeError.
Proof.
  intros Ht Hover Hmoves. unfold in_time in Ht.
  cbn [alpha_beta]. unfold bind at 1. unfold is_time_up, bind, time_now, get_self, ret.
  cbn [w_engine w_ticks w_board]. rewrite Ht. cbn [negb].
  unfold get_board. cbn [w_engine w_ticks w_board]. rewrite Hover.
  destruct (legal_moves (w_board w)) as [|m ms]; [congruence|].
  apply raise_bind, order_moves_fails.
Qed.

(** So does [get_best_move], on every position that is not over, for every
    depth ceiling of at least one, when the deadline has not passed at the
    two checks made before the first call of [order_moves]. *)
Lemma get_best_move_raises_AttributeError (w : World) :
  1 <= depth (w_engine w) ->
  Qle_bool (time_time (S (w_ticks w)) - time_time (w_ticks w))
           (time_limit (w_engine w)) = true ->
  Qle_bool (time_time (S (S (w_ticks w))) - time_time (w_ticks w))
           (time_limit (w_engine w)) = true ->
  is_game_over (w_board w) = false ->
  legal_moves (w_board w) <> [] ->
  fst (get_best_move time_time shipped_piece_defense w) = Raise AttributeError.
Proof.
  intros Hdepth Ht1 Ht2 Hover Hmoves.
  unfold get_best_move, iterative_deepening.
  unfold bind at 1. unfold time_now at 1.
  unfold bind at 1. unfold modify_self at 1.
  unfold bind at 1. unfold modify_self at 1.
  cbn [w_engine w_board w_ticks].
  apply raise_bind. unfold bind at 1. unfold get_self at 1.
  cbn [w_engine w_board w_ticks set_position_history set_start_time depth].
  destruct (Z.to_nat (depth (w_engine w))) as [|fuel] eqn:Hfuel; [lia|].
  cbn [deepening_loop]. unfold bind at 1. unfold get_self at 1.
  cbn [w_engine w_board w_ticks set_position_history set_start_time depth].
  replace (1 <=? depth (w_engine w)) with true by (symmetry; apply Z.leb_le; lia).
  unfold bind at 1. rewrite is_time_up_open by exact Ht1.
  apply raise_bind, raise_swallow; [discriminate|].
  change (Z.to_nat 1) with 1%nat.
  apply alpha_beta_raises_AttributeError; [exact Ht2 | exact Hover | exact Hmoves].
Qed.

End EngineFacts.

(** ** The evaluator *)

Section EvaluatorFacts.
Context {rules : RulesEngine}.

Lemma set_turn_back (b : Board) (c1 c2 : Color) :
  set_turn (set_turn (set_turn b c1) c2) (turn b) = b.
Proof. destruct b; reflexivity. Qed.

Lemma _evaluate_mobility_board (board : Board) :
  snd (_evaluate_mobility board) = board.
Proof. unfold _evaluate_mobility. cbn. apply set_turn_back. Qed.

Lemma evaluate_board (self : ChessEvaluator) (board : Board) :
  snd (evaluate self board) = board.
Proof.
  unfold evaluate.
  destruct (is_checkmate board); [reflexivity|].
  destruct (is_stalemate board || is_insufficient_material board); [reflexivity|].
  pose proof (_evaluate_mobility_board board) as Hm.
  destruct (_evaluate_mobility board) as [m b']. cbn in Hm. subst b'.
  destruct (_is_endgame board); reflexivity.
Qed.

Lemma insert_king_agree (s1 s2 : ChessEvaluator) (table : list Z) :
  same_off_king s1 s2 ->
  <[KING := table]> (PIECE_POSITION_SCORES s1)
  = <[KING := table]> (PIECE_POSITION_SCORES s2).
Proof.
  intros H. apply map_eq. intros pt.
  destruct (decide (pt = KING)) as [->|Hne].
  - rewrite !lookup_insert_eq. reflexivity.
  - rewrite !lookup_insert_ne by congruence. apply H, Hne.
Qed.

Lemma evaluate_score_agree (s1 s2 : ChessEvaluator) (board : Board) :
  same_off_king s1 s2 -> evaluate_score s1 board = evaluate_score s2 board.
Proof.
  intros H. unfold evaluate_score, evaluate.
  destruct (is_checkmate board); [reflexivity|].
  destruct (is_stalemate board || is_insufficient_material board); [reflexivity|].
  rewrite (insert_king_agree s1 s2 _ H). reflexivity.
Qed.

Lemma evaluate_off_king (self : ChessEvaluator) (board : Board) :
  same_off_king self (snd (fst (evaluate self board))).
Proof.
  intros pt Hne. unfold evaluate.
  destruct (is_checkmate board); [reflexivity|].
  destruct (is_stalemate board || is_insufficient_material board); [reflexivity|].
  destruct (_evaluate_mobility board) as [m b'].
  destruct (_is_endgame board); cbn; rewrite lookup_insert_ne by congruence; reflexivity.
Qed.

Lemma evaluator_after_off_king (others : list Board) (self : ChessEvaluator) :
  same_off_king self (evaluator_after self others).
Proof.
  revert self. induction others as [|b others IH]; intros self pt Hne; [reflexivity|].
  transitivity (PIECE_POSITION_SCORES (snd (fst (evaluate self b))) !! pt).
  - apply evaluate_off_king, Hne.
  - apply (IH (snd (fst (evaluate self b))) pt Hne).
Qed.

(** C9: [evaluate] is a function of the position.  A call on [board]
    returns the same score after any other boards have been evaluated in
    between, whatever king table those calls left behind, and every call
    hands the board back as it received it (the side to move, assigned
    twice while mobility is counted, is assigned back). *)
Theorem evaluate_is_pure (self : ChessEvaluator) (board : Board) (others : list Board) :
  let later := evaluator_after (snd (fst (evaluate self board))) others in
  evaluate_score later board = evaluate_score self board
  /\ snd (evaluate self board) = board
  /\ snd (evaluate later board) = board.
Proof.
  cbn zeta. split; [|split]; try apply evaluate_board.
  symmetry. apply evaluate_score_agree.
  intros pt Hne.
  rewrite <- (evaluator_after_off_king others _ pt Hne).
  apply evaluate_off_king, Hne.
Qed.

Lemma evaluate_checkmate (self : ChessEvaluator) (board : Board) :
  is_checkmate board = true ->
  evaluate_score self board = if turn board then NegInf else PosInf.
Proof. intros H. unfold evaluate_score, evaluate. rewrite H. reflexivity. Qed.

(** C4 (code as it is): when the side to move is mated and that side is
    Black, [evaluate] returns plus infinity, the best score there is for
    the side to move, where the claim asks for minus infinity. *)
Theorem evaluate_checkmated_black (self : ChessEvaluator) (board : Board) :
  is_checkmate board = true ->
  turn board = BLACK ->
  evaluate_score self board = PosInf.
Proof. intros Hmate Hturn. rewrite evaluate_checkmate, Hturn by assumption. reflexivity. Qed.

End EvaluatorFacts.

Lemma evaluate_checkmated_black_witness :
  @is_checkmate py_chess black_mated = true
  /\ turn black_mated = BLACK
  /\ @evaluate_score py_chess ChessEvaluator_init black_mated = PosInf.
Proof.
  split; [vm_compute; reflexivity|]. split; [reflexivity|].
  apply (@evaluate_checkmated_black py_chess); [vm_compute; reflexivity | reflexivity].
Defined.

(** ** The search *)

Section SearchFacts.
Context {rules : RulesEngine}.
Variable time_time : nat -> Q.
Variable piece_defense : option (Board -> Q).

Lemma leaf_value_spec (w : World) :
  fst (leaf_value w)
  = Return
      (let raw := evaluate_score (evaluator (w_engine w)) (w_board w) in
       if seen (position_history (w_engine w)) (board_fen (w_board w))
          && gt_500 (float_abs raw)
       then float_mul_08 raw else raw,
       None).
Proof.
  unfold leaf_value, bind, call_evaluate, get_board, get_self, ret, evaluate_score.
  pose proof (evaluate_board (evaluator (w_engine w)) (w_board w)) as Hb.
  destruct (evaluate (evaluator (w_engine w)) (w_board w)) as [[v ev] b].
  cbn in Hb. subst b. reflexivity.
Qed.

(** At a leaf of [alpha_beta] (depth 0 or game over, deadline not
    passed) the evaluation is multiplied by 0.8 when the placement is a
    key of the position history and the magnitude of the evaluation
    exceeds 500; otherwise it is returned as it is. *)
Lemma alpha_beta_leaf_seen (depth : nat) (alpha beta : pyfloat) (maximizing : bool)
    (w : World) :
  in_time time_time w ->
  depth = O \/ is_game_over (w_board w) = true ->
  fst (alpha_beta time_time piece_defense depth alpha beta maximizing w)
  = Return
      (let raw := evaluate_score (evaluator (w_engine w)) (w_board w) in
       if seen (position_history (w_engine w)) (board_fen (w_board w))
          && gt_500 (float_abs raw)
       then float_mul_08 raw else raw,
       None).
Proof.
  intros Ht Hleaf.
  assert (Hgo : alpha_beta time_time piece_defense depth alpha beta maximizing w
                = leaf_value (mkWorld (w_engine w) (w_board w) (S (w_ticks w)))).
  { destruct depth as [|d]; cbn [alpha_beta]; unfold bind at 1;
      rewrite (is_time_up_open time_time w Ht); [reflexivity|].
    destruct Hleaf as [Hd|Hover]; [discriminate|].
    unfold bind, get_board. cbn [w_board]. rewrite Hover. reflexivity. }
  rewrite Hgo. apply (leaf_value_spec (mkWorld (w_engine w) (w_board w) (S (w_ticks w)))).
Qed.

End SearchFacts.

Section ChildFacts.
Context {rules : RulesEngine}.

(** When the search of a child is cut off by the deadline, [search_child]
    takes the move back and passes the [TimeoutError] on; the engine object,
    and with it the count raised on entering the child, stays as the child
    left it. *)
Lemma search_child_timeout (move : Move) (child : M (pyfloat * option Move))
    (w w1 : World) :
  let board := push (w_board w) move in
  let h := position_history (w_engine w) in
  let entered :=
    mkWorld (set_position_history
               (<[board_fen board := default 0 (h !! board_fen board) + 1]> h)
               (w_engine w))
            board (w_ticks w) in
  child entered = (Raise TimeoutError, w1) ->
  search_child move child w
  = (Raise TimeoutError, mkWorld (w_engine w1) (pop (w_board w1)) (w_ticks w1)).
Proof.
  cbn zeta. intros Hchild.
  unfold search_child, bind, modify_board, get_board, modify_self, on_timeout_reraise.
  cbn [w_engine w_board w_ticks]. rewrite Hchild. reflexivity.
Qed.

End ChildFacts.

(** ** The engine on given positions *)

(** C1 (code as it is): asked for a move in the starting position with
    depth 3 and an hour on the clock, the engine as shipped does not return
    a move; [AttributeError] leaves [get_best_move]. *)
Theorem get_best_move_starting_position_raises :
  fst (@get_best_move py_chess ticking_clock shipped_piece_defense
         (fresh_world 3 3600 starting_board))
  = Raise AttributeError.
Proof. vm_compute. reflexivity. Qed.

(** C7 (code as it is): that failed call hands the caller's board back
    with a move still on it.  [order_moves] had pushed the first legal move,
    the knight from g1 to h3, for the defence term, and the exception
    skipped the matching pop. *)
Theorem get_best_move_leaves_move_on_board :
  let w := fresh_world 3 3600 starting_board in
  let w' := snd (@get_best_move py_chess ticking_clock shipped_piece_defense w) in
  w_board w' = @push py_chess starting_board (mkMove 6 23 None)
  /\ board_fen (w_board w') = "rnbqkbnr/pppppppp/8/8/8/7N/PPPPPPPP/RNBQKB1R"%string
  /\ turn (w_board w') = BLACK
  /\ w_board w' <> w_board w.
Proof.
  cbn zeta.
  split; [vm_compute; reflexivity|]. split; [vm_compute; reflexivity|].
  split; [vm_compute; reflexivity|].
  intros H. apply (f_equal turn) in H. vm_compute in H. discriminate.
Qed.

(** C6 (code as it is): the queen gives check on d8, next to the king, and
    the king's capture of it is a legal reply; the look-ahead still scores
    the check 30, without the 100 taken off.  The reply is examined after it
    has been pushed, when the square holds the capturing piece. *)
Theorem check_score_ignores_recapture :
  let checked := @push py_chess queen_ending queen_check in
  @is_check py_chess checked = true
  /\ @is_checkmate py_chess checked = false
  /\ In king_takes_queen (@legal_moves py_chess checked)
  /\ piece_at checked (to_square king_takes_queen) = piece_at queen_ending (from_square queen_check)
  /\ fst (@check_score py_chess queen_check (piece_at queen_ending (from_square queen_check))
            (fresh_world 1 10 queen_ending))
     = Return 30%Q.
Proof.
  cbn zeta.
  split; [vm_compute; reflexivity|]. split; [vm_compute; reflexivity|].
  split; [vm_compute; left; reflexivity|].
  split; vm_compute; reflexivity.
Qed.

(** C10 (code as it is): at depth 0, with an empty history, the maximizing
    call on a position and the minimizing call on its mirror image return
    the same score, 1005.4 for the side with the queen, and not scores that
    are negatives of each other. *)
Theorem leaf_scores_of_mirrored_positions :
  exists x y : Q,
    fst (@alpha_beta py_chess stalled_clock shipped_piece_defense 0 NegInf PosInf true
           (fresh_world 1 10 queen_ending))
    = Return (Finite x, None)
    /\ fst (@alpha_beta py_chess stalled_clock shipped_piece_defense 0 NegInf PosInf false
              (fresh_world 1 10 (mirror queen_ending)))
       = Return (Finite y, None)
    /\ (x == 10054 # 10)%Q /\ (x == y)%Q /\ ~ (x == - y)%Q.
Proof.
  eexists. eexists.
  split; [vm_compute; reflexivity|].
  split; [vm_compute; reflexivity|].
  split; [reflexivity|]. split; [reflexivity|].
  intros H. vm_compute in H. discriminate.
Qed.

(** ** What a call leaves behind *)

Lemma same_counts_refl h : same_counts h h.
Proof. intros fp. reflexivity. Qed.

Lemma same_counts_trans h1 h2 h3 :
  same_counts h1 h2 -> same_counts h2 h3 -> same_counts h1 h3.
Proof. intros H12 H23 fp. rewrite H12. apply H23. Qed.

Lemma triple_ret {A} (P : World -> Prop) (a : A) T : triple P (ret a) (fun _ => P) T.
Proof. intros w Hw. exact Hw. Qed.

Lemma triple_bind {A B} P (c : M A) Q (k : A -> M B) R T :
  triple P c Q T -> (forall a, triple (Q a) (k a) R T) -> triple P (bind c k) R T.
Proof.
  intros Hc Hk w Hw. unfold bind. specialize (Hc w Hw).
  destruct (c w) as [[a|e] w']; [apply Hk, Hc | exact Hc].
Qed.

Lemma triple_weaken {A} (P P' : World -> Prop) (c : M A) (Q Q' : A -> World -> Prop)
    (T T' : World -> Prop) :
  (forall w, P w -> P' w) -> (forall a w, Q' a w -> Q a w) -> (forall w, T' w -> T w) ->
  triple P' c Q' T' -> triple P c Q T.
Proof.
  intros HP HQ HT Hc w Hw. specialize (Hc w (HP w Hw)).
  destruct (c w) as [[a|[]] w']; auto.
Qed.

Lemma triple_raise_other {A} P (e : exn) (Q : A -> World -> Prop) T :
  e <> TimeoutError -> triple P (raise e) Q T.
Proof. intros He w _. cbn. destruct e; [congruence | exact I | exact I]. Qed.

Lemma triple_get_board P T : triple P get_board (fun _ => P) T.
Proof. intros w Hw. exact Hw. Qed.

Lemma triple_get_self P T : triple P get_self (fun _ => P) T.
Proof. intros w Hw. exact Hw. Qed.

Lemma triple_modify_board b h f T :
  triple (frame_is b h) (modify_board f) (fun _ => frame_is (f b) h) T.
Proof. intros w [Hb Hh]. split; [cbn; congruence | exact Hh]. Qed.

Section FrameFacts.
Context {rules : RulesEngine}.
Variable time_time : nat -> Q.
Variable piece_defense : option (Board -> Q).

(** The law of the rules library this section rests on: [pop] undoes
    [push]. *)
Hypothesis pop_push : forall b m, pop (push b m) = b.

Lemma triple_pop_push b m h T :
  triple (frame_is (push b m) h) (modify_board pop) (fun _ => frame_is b h) T.
Proof.
  pose proof (triple_modify_board (push b m) h pop T) as H.
  rewrite pop_push in H. exact H.
Qed.

Lemma triple_call_evaluate b h T :
  triple (frame_is b h) call_evaluate (fun _ => frame_is b h) T.
Proof.
  intros w [Hb Hh]. unfold call_evaluate.
  pose proof (evaluate_board (evaluator (w_engine w)) (w_board w)) as He.
  destruct (evaluate (evaluator (w_engine w)) (w_board w)) as [[v ev] b'].
  cbn in He. subst b'. split; [exact Hb | exact Hh].
Qed.

Lemma triple_is_time_up b h T :
  triple (frame_is b h) (is_time_up time_time) (fun _ => frame_is b h) T.
Proof. intros w Hw. exact Hw. Qed.

Lemma triple_call_piece_defense b h T :
  triple (frame_is b h) (call_piece_defense piece_defense) (fun _ => frame_is b h) T.
Proof.
  unfold call_piece_defense. destruct piece_defense as [method|].
  - intros w Hw. exact Hw.
  - apply triple_raise_other. discriminate.
Qed.

Lemma check_score_frame b h move moving_piece T :
  triple (frame_is b h) (check_score move moving_piece) (fun _ => frame_is b h) T.
Proof.
  unfold check_score.
  eapply triple_bind; [apply triple_modify_board | intros ?].
  eapply triple_bind; [apply triple_get_board | intros board].
  eapply triple_bind with (Q := fun _ => frame_is (push b move) h);
    [ | intros score; eapply triple_bind; [apply triple_pop_push | intros ?; apply triple_ret] ].
  destruct (is_checkmate board); [apply triple_ret|].
  destruct (is_check board); [|apply triple_ret].
  eapply triple_bind; [apply triple_call_evaluate | intros v].
  eapply triple_bind; [apply triple_get_board | intros board'].
  cbn zeta. generalize (if gt_500 v then (30 + 50)%Q else 30%Q).
  generalize (legal_moves board'). intros l.
  induction l as [|r l IH]; intros score; cbn [reply_penalties]; [apply triple_ret|].
  eapply triple_bind; [apply triple_modify_board | intros ?].
  eapply triple_bind; [apply triple_get_board | intros board''].
  cbn zeta.
  eapply triple_bind; [apply triple_pop_push | intros ?]. apply IH.
Qed.

Lemma repetition_score_frame b h move T :
  triple (frame_is b h) (repetition_score move) (fun _ => frame_is b h) T.
Proof.
  unfold repetition_score.
  eapply triple_bind; [apply triple_modify_board | intros ?].
  eapply triple_bind; [apply triple_get_board | intros board].
  eapply triple_bind; [apply triple_get_self | intros self].
  cbn zeta.
  eapply triple_bind with (Q := fun _ => frame_is (push b move) h).
  - destruct (bool_decide _); [|apply triple_ret].
    eapply triple_bind; [apply triple_call_evaluate | intros v; apply triple_ret].
  - intros penalised.
    eapply triple_bind; [apply triple_pop_push | intros ?; apply triple_ret].
Qed.

Lemma defense_score_frame b h move T :
  triple (frame_is b h) (defense_score piece_defense move) (fun _ => frame_is b h) T.
Proof.
  unfold defense_score.
  eapply triple_bind; [apply triple_modify_board | intros ?].
  eapply triple_bind; [apply triple_call_piece_defense | intros d].
  eapply triple_bind; [apply triple_pop_push | intros ?; apply triple_ret].
Qed.

Lemma move_score_frame b h move T :
  triple (frame_is b h) (move_score piece_defense move) (fun _ => frame_is b h) T.
Proof.
  unfold move_score.
  eapply triple_bind; [apply triple_get_board | intros board].
  cbn zeta.
  eapply triple_bind; [apply check_score_frame | intros score].
  eapply triple_bind with (Q := fun _ => frame_is b h).
  - destruct (piece_at board (to_square move)); [|apply triple_ret].
    destruct (piece_at board (from_square move)); [apply triple_ret|].
    apply triple_raise_other. discriminate.
  - intros score'.
    eapply triple_bind; [apply repetition_score_frame | intros penalty].
    eapply triple_bind; [apply defense_score_frame | intros d; apply triple_ret].
Qed.

Lemma score_moves_frame b h moves T :
  triple (frame_is b h) (score_moves piece_defense moves) (fun _ => frame_is b h) T.
Proof.
  induction moves as [|move rest IH]; cbn [score_moves]; [apply triple_ret|].
  eapply triple_bind; [apply move_score_frame | intros score].
  eapply triple_bind; [apply IH | intros scores; apply triple_ret].
Qed.

(** When [order_moves] returns, the board and the history are as they were
    on entry.  It never raises [TimeoutError]. *)
Lemma order_moves_frame b h moves T :
  triple (frame_is b h) (order_moves piece_defense moves) (fun _ => frame_is b h) T.
Proof.
  unfold order_moves.
  eapply triple_bind; [apply score_moves_frame | intros scores; apply triple_ret].
Qed.

Lemma leaf_value_frame b h T :
  triple (frame_is b h) leaf_value (fun _ => frame_is b h) T.
Proof.
  unfold leaf_value.
  eapply triple_bind; [apply triple_call_evaluate | intros v].
  eapply triple_bind; [apply triple_get_board | intros board].
  eapply triple_bind; [apply triple_get_self | intros self].
  apply triple_ret.
Qed.

Lemma same_counts_enter (h h' : gmap string Z) (k : string) :
  same_counts h h' ->
  same_counts (<[k := default 0 (h !! k) + 1]> h) (<[k := default 0 (h' !! k) + 1]> h').
Proof.
  intros H fp. destruct (decide (fp = k)) as [->|Hne].
  - rewrite !lookup_insert_eq. cbn. rewrite (H k). reflexivity.
  - rewrite !lookup_insert_ne by congruence. apply H.
Qed.

Lemma same_counts_leave (h h2 : gmap string Z) (k : string) (n : Z) :
  same_counts (<[k := default 0 (h !! k) + 1]> h) h2 ->
  h2 !! k = Some n ->
  same_counts h (<[k := n - 1]> h2).
Proof.
  intros H Hn fp. destruct (decide (fp = k)) as [->|Hne].
  - rewrite lookup_insert_eq. cbn.
    specialize (H k). rewrite lookup_insert_eq, Hn in H. cbn in H. lia.
  - rewrite lookup_insert_ne by congruence.
    specialize (H fp). rewrite lookup_insert_ne in H by congruence. exact H.
Qed.

(** One child of a node: if the search of the child keeps the frame, so
    does entering it, searching it and leaving it; and when the deadline
    cuts the child off the move is taken back. *)
Lemma search_child_frame b h move (child : M (pyfloat * option Move)) :
  (forall b' h', triple (frame_is b' h') child (fun _ => frame_is b' h')
                        (fun w => w_board w = b')) ->
  triple (frame_is b h) (search_child move child) (fun _ => frame_is b h)
         (fun w => w_board w = b).
Proof.
  intros Hchild w [Hb Hh].
  unfold search_child, bind, modify_board, get_board, modify_self,
    on_timeout_reraise, get_self.
  cbn [w_engine w_board w_ticks].
  set (k := board_fen (push (w_board w) move)).
  match goal with |- context [child ?e] => set (entered := e) end.
  assert (Hentered : frame_is (push b move) (<[k := default 0 (h !! k) + 1]> h) entered).
  { split; [cbn; congruence|]. cbn. apply same_counts_enter, Hh. }
  specialize (Hchild _ _ entered Hentered).
  destruct (child entered) as [[r|e] w2].
  - destruct Hchild as [Hb2 Hh2].
    destruct (position_history (w_engine w2) !! k) as [n|] eqn:Hn; [|exact I].
    cbn. split.
    + rewrite Hb2. apply pop_push.
    + apply same_counts_leave; assumption.
  - destruct e; [|exact I|exact I].
    cbn. cbn in Hchild. rewrite Hchild. apply pop_push.
Qed.

(** The frame of [alpha_beta].  When a call returns, by exhausting the
    moves or by the pruning [break], the board is as on entry and every
    placement has the count it had on entry.  When the call is cut off by
    the deadline, the board is as on entry. *)
Lemma alpha_beta_frame (depth : nat) :
  forall alpha beta maximizing b h,
    triple (frame_is b h)
           (alpha_beta time_time piece_defense depth alpha beta maximizing)
           (fun _ => frame_is b h)
           (fun w => w_board w = b).
Proof.
  induction depth as [|d IH]; intros alpha beta maximizing b h; cbn [alpha_beta].
  - eapply triple_bind; [apply triple_is_time_up | intros up].
    destruct up; [intros w [Hb _]; exact Hb|].
    eapply triple_bind; [apply triple_get_board | intros board].
    apply leaf_value_frame.
  - eapply triple_bind; [apply triple_is_time_up | intros up].
    destruct up; [intros w [Hb _]; exact Hb|].
    eapply triple_bind; [apply triple_get_board | intros board].
    destruct (is_game_over board); [apply leaf_value_frame|].
    cbn zeta.
    eapply triple_bind; [apply order_moves_frame; assumption | intros ordered].
    destruct maximizing.
    + generalize NegInf (@None Move) alpha.
      induction ordered as [|move rest IHl]; intros best_eval best_move a;
        [apply triple_ret|].
      eapply triple_bind; [apply search_child_frame; intros; apply IH | intros eval].
      destruct (float_ltb best_eval eval); cbn zeta;
        (destruct (float_leb beta (float_max a eval)); [apply triple_ret | apply IHl]).
    + generalize PosInf (@None Move) beta.
      induction ordered as [|move rest IHl]; intros best_eval best_move bt;
        [apply triple_ret|].
      eapply triple_bind; [apply search_child_frame; intros; apply IH | intros eval].
      destruct (float_ltb eval best_eval); cbn zeta;
        (destruct (float_leb (float_min bt eval) alpha); [apply triple_ret | apply IHl]).
Qed.

Lemma triple_swallow_timeout {A} P (c : M A) Q T :
  triple P c Q T ->
  triple P (swallow_timeout c)
         (fun r w => match r with Some a => Q a w | None => T w end)
         (fun _ => False).
Proof.
  intros Hc w Hw. unfold swallow_timeout. specialize (Hc w Hw).
  destruct (c w) as [[a|[]] w']; auto.
Qed.

Lemma deepening_loop_frame (fuel : nat) :
  forall current_depth best_move b h,
    triple (frame_is b h)
           (deepening_loop time_time piece_defense fuel current_depth best_move)
           (fun _ w => w_board w = b) (fun _ => False).
Proof.
  induction fuel as [|fuel IH]; intros current_depth best_move b h; cbn [deepening_loop].
  - intros w [Hb _]. exact Hb.
  - eapply triple_bind; [apply triple_get_self | intros self].
    destruct (current_depth <=? depth self); [|intros w [Hb _]; exact Hb].
    eapply triple_bind; [apply triple_is_time_up | intros up].
    destruct up; [intros w [Hb _]; exact Hb|].
    eapply triple_bind; [apply triple_swallow_timeout, alpha_beta_frame | intros r].
    destruct r as [[v move]|]; [apply IH | intros w Hb; exact Hb].
Qed.

(** Whenever [get_best_move] returns, with a move or with none, after a
    completed search or one cut off by the deadline, the caller's board is
    as it was; and [TimeoutError] never leaves [get_best_move]. *)
Lemma get_best_move_frame (b : Board) :
  triple (fun w => w_board w = b) (get_best_move time_time piece_defense)
         (fun _ w => w_board w = b) (fun _ => False).
Proof.
  unfold get_best_move, iterative_deepening.
  eapply triple_bind with (Q := fun _ w => w_board w = b); [intros w Hw; exact Hw | intros now].
  eapply triple_bind with (Q := fun _ w => w_board w = b); [intros w Hw; exact Hw | intros ?].
  eapply triple_bind with (Q := fun _ => frame_is b ∅).
  { intros w Hw. split; [exact Hw | apply same_counts_refl]. }
  intros ?.
  eapply triple_bind with (Q := fun _ w => w_board w = b).
  { eapply triple_bind; [apply triple_get_self | intros self]. apply deepening_loop_frame. }
  intros best_move.
  eapply triple_bind with (Q := fun _ w => w_board w = b); [intros w Hw; exact Hw | intros ?].
  apply triple_ret.
Qed.

(** *** The look-ahead after a check *)

Lemma reply_penalties_none (moving_piece : option Piece) (B : Board) (l : list Move) :
  (forall r, In r l -> piece_at (push B r) (to_square r) <> moving_piece) ->
  forall score w,
    w_board w = B -> reply_penalties moving_piece l score w = (Return score, w).
Proof.
  induction l as [|r l IH]; intros Hl score w HB; [reflexivity|].
  cbn [reply_penalties]. unfold bind, modify_board, get_board. cbn [w_engine w_board w_ticks].
  rewrite HB. rewrite bool_decide_eq_false_2 by (apply Hl; left; reflexivity).
  rewrite andb_false_r, pop_push.
  rewrite IH; [ | intros r' Hr'; apply Hl; right; exact Hr' | reflexivity ].
  destruct w; cbn in HB; subst; reflexivity.
Qed.

(** What the look-ahead adds when no reply leaves, on its destination
    square, a piece equal to the one that moved: 10000 for mate; for a
    check 30, and 50 more when [evaluate] on the position after the move
    exceeds 500; nothing otherwise.  Nothing is taken off. *)
Lemma check_score_without_penalty (move : Move) (moving_piece : option Piece) (w : World) :
  let after := push (w_board w) move in
  (forall r, In r (legal_moves after) ->
             piece_at (push after r) (to_square r) <> moving_piece) ->
  fst (check_score move moving_piece w)
  = Return
      (if is_checkmate after then 10000
       else if is_check after then
         if gt_500 (evaluate_score (evaluator (w_engine w)) after) then 30 + 50 else 30
       else 0)%Q.
Proof.
  cbn zeta. intros Hreplies.
  unfold check_score, bind, modify_board, get_board. cbn [w_engine w_board w_ticks].
  destruct (is_checkmate (push (w_board w) move)); [reflexivity|].
  destruct (is_check (push (w_board w) move)); [|reflexivity].
  unfold call_evaluate, evaluate_score. cbn [w_engine w_board w_ticks].
  pose proof (evaluate_board (evaluator (w_engine w)) (push (w_board w) move)) as He.
  destruct (evaluate (evaluator (w_engine w)) (push (w_board w) move)) as [[v ev] b'].
  cbn in He. subst b'. cbn.
  rewrite (reply_penalties_none moving_piece (push (w_board w) move)); auto.
Qed.

(** A reply puts a piece of the replying side on its destination square,
    and the piece that gave the check belongs to the other side: under
    these two facts about the rules library the hypothesis above holds,
    so the 100 is never taken off. *)
Lemma recapture_never_matches (board : Board) (move : Move) (moving : Piece) :
  color moving = turn board ->
  (forall r, In r (legal_moves (push board move)) ->
             exists p, piece_at (push (push board move) r) (to_square r) = Some p
                       /\ color p = negb (turn board)) ->
  forall r, In r (legal_moves (push board move)) ->
            piece_at (push (push board move) r) (to_square r) <> Some moving.
Proof.
  intros Hmover Hreply r Hr Heq.
  destruct (Hreply r Hr) as (p & Hp & Hcolor).
  rewrite Hp in Heq. injection Heq as ->.
  rewrite Hmover in Hcolor. destruct (turn board); discriminate.
Qed.

End FrameFacts.

(** ** What the failing call leaves on the board *)

Lemma fails_bind {A B} (c : M A) (k : A -> M B) w Bd :
  fails_leaving c w Bd -> fails_leaving (bind c k) w Bd.
Proof.
  intros (w' & E & Hb). exists w'. unfold bind. rewrite E. auto.
Qed.

Lemma fails_after {A B} (c : M A) (k : A -> M B) w a w1 Bd :
  c w = (Return a, w1) -> fails_leaving (k a) w1 Bd -> fails_leaving (bind c k) w Bd.
Proof.
  intros E (w' & E' & Hb). exists w'. unfold bind. rewrite E. auto.
Qed.

Lemma run_framed {A} (c : M A) b h w :
  returns c ->
  triple (frame_is b h) c (fun _ => frame_is b h) (fun _ => False) ->
  frame_is b h w ->
  exists a w1, c w = (Return a, w1) /\ frame_is b h w1.
Proof.
  intros Hr Ht Hw. destruct (Hr w) as (a & w1 & E). exists a, w1.
  split; [exact E|]. specialize (Ht w Hw). rewrite E in Ht. exact Ht.
Qed.

Section FailureFacts.
Context {rules : RulesEngine}.
Variable time_time : nat -> Q.
Hypothesis pop_push : forall b m, pop (push b m) = b.

(** Scoring a move of a piece that is on the board fails with the move
    still applied: line 64 has pushed it and line 67 is not reached. *)
Lemma move_score_leaves_move (move : Move) (w : World) :
  is_Some (piece_at (w_board w) (from_square move)) ->
  fails_leaving (move_score shipped_piece_defense move) w (push (w_board w) move).
Proof.
  intros [moving Hmoving].
  set (b := w_board w). set (h := position_history (w_engine w)).
  assert (Hw : frame_is b h w) by (split; [reflexivity | apply same_counts_refl]).
  unfold move_score.
  eapply fails_after; [reflexivity|]. cbn zeta.
  destruct (run_framed (check_score move (piece_at (w_board w) (from_square move))) b h w)
    as (q & w1 & E1 & Hw1);
    [apply returns_check_score | apply check_score_frame, pop_push | exact Hw |].
  eapply fails_after; [exact E1|].
  rewrite Hmoving.
  destruct (run_framed (repetition_score move) b h w1) as (p & w2 & E2 & Hw2);
    [apply returns_repetition_score | apply repetition_score_frame, pop_push | exact Hw1 |].
  destruct (piece_at (w_board w) (to_square move)) as [captured|];
    (eapply fails_after; [reflexivity|]);
    (eapply fails_after; [exact E2|]);
    apply fails_bind; unfold defense_score;
    (eapply fails_after; [reflexivity|]);
    apply fails_bind; eexists; (split; [reflexivity|]);
    cbn; destruct Hw2 as [-> _]; reflexivity.
Qed.

(** On every position that is not over, where the first legal move moves
    a piece that is on the board, the failing [get_best_move] hands the
    board back with that move applied. *)
Lemma get_best_move_leaves_first_move (w : World) (move : Move) (rest : list Move) :
  1 <= depth (w_engine w) ->
  Qle_bool (time_time (S (w_ticks w)) - time_time (w_ticks w))
           (time_limit (w_engine w)) = true ->
  Qle_bool (time_time (S (S (w_ticks w))) - time_time (w_ticks w))
           (time_limit (w_engine w)) = true ->
  is_game_over (w_board w) = false ->
  legal_moves (w_board w) = move :: rest ->
  is_Some (piece_at (w_board w) (from_square move)) ->
  fails_leaving (get_best_move time_time shipped_piece_defense) w
                (push (w_board w) move).
Proof.
  intros Hdepth Ht1 Ht2 Hover Hmoves Hpiece.
  unfold get_best_move, iterative_deepening.
  eapply fails_after; [reflexivity|].
  eapply fails_after; [reflexivity|].
  eapply fails_after; [reflexivity|].
  apply fails_bind.
  eapply fails_after; [reflexivity|].
  cbn [w_engine w_board w_ticks set_position_history set_start_time depth].
  destruct (Z.to_nat (depth (w_engine w))) as [|fuel] eqn:Hfuel; [lia|].
  cbn [deepening_loop].
  eapply fails_after; [reflexivity|].
  cbn [w_engine w_board w_ticks set_position_history set_start_time depth].
  replace (1 <=? depth (w_engine w)) with true by (symmetry; apply Z.leb_le; lia).
  eapply fails_after; [apply is_time_up_open; exact Ht1|].
  cbn [w_engine w_board w_ticks].
  apply fails_bind.
  change (Z.to_nat 1) with 1%nat. cbn [alpha_beta].
  match goal with
  | |- fails_leaving (swallow_timeout ?c) ?w1 ?B =>
      assert (Hc : fails_leaving c w1 B);
      [ | destruct Hc as (w' & E & Hb); exists w'; unfold swallow_timeout;
          rewrite E; auto ]
  end.
  eapply fails_after; [apply is_time_up_open; exact Ht2|].
  eapply fails_after; [reflexivity|].
  cbn [w_engine w_board w_ticks]. rewrite Hover, Hmoves.
  apply fails_bind. unfold order_moves. apply fails_bind. cbn [score_moves].
  apply fails_bind.
  apply (move_score_leaves_move move
           (mkWorld (set_position_history ∅
                       (set_start_time (time_time (w_ticks w)) (w_engine w)))
                    (w_board w) (S (S (S (w_ticks w)))))).
  exact Hpiece.
Qed.

End FailureFacts.

(** The reference implementation satisfies the law used above. *)
Lemma py_chess_pop_push (b : Board) (m : Move) : @pop py_chess (@push py_chess b m) = b.
Proof. destruct b. reflexivity. Qed.

(** * Further properties of the engine *)

Section OrderFacts.
Context {rules : RulesEngine}.
Variable piece_defense : option (Board -> Q).

(** X3: on the empty list [order_moves] returns the empty list and leaves
    everything as it was, whatever the evaluator; with the evaluator as
    shipped that is the only list on which it returns. *)
Theorem order_moves_empty (moves : list Move) (w : World) :
  order_moves piece_defense [] w = (Return [], w)
  /\ ((exists ordered, fst (order_moves shipped_piece_defense moves w) = Return ordered)
      <-> moves = []).
Proof.
  split; [reflexivity|]. split.
  - intros [ordered H]. destruct moves as [|move rest]; [reflexivity|].
    rewrite order_moves_fails in H. discriminate.
  - intros ->. exists []. reflexivity.
Qed.

End OrderFacts.

(** ** What a search leaves behind, in plain terms *)

Section RestoreFacts.
Context {rules : RulesEngine}.
Variable time_time : nat -> Q.
Variable piece_defense : option (Board -> Q).

(** X4: if the rules library's [pop] undoes [push], a call of
    [alpha_beta] that returns, at any depth and with any window, hands the
    board back as it received it and leaves every placement with the count
    it had; a call cut off by the deadline hands the board back as it
    received it. *)
Theorem alpha_beta_restores (depth : nat) (alpha beta : pyfloat) (maximizing : bool)
    (w : World) :
  (forall b m, pop (push b m) = b) ->
  match alpha_beta time_time piece_defense depth alpha beta maximizing w with
  | (Return _, w') =>
      w_board w' = w_board w
      /\ forall fp, default 0 (position_history (w_engine w') !! fp)
                    = default 0 (position_history (w_engine w) !! fp)
  | (Raise TimeoutError, w') => w_board w' = w_board w
  | (Raise _, _) => True
  end.
Proof.
  intros Hpop.
  pose proof (alpha_beta_frame time_time piece_defense Hpop depth alpha beta maximizing
                (w_board w) (position_history (w_engine w)) w
                (conj eq_refl (same_counts_refl _))) as H.
  destruct (alpha_beta time_time piece_defense depth alpha beta maximizing w)
    as [[r|[]] w']; auto.
  destruct H as [Hb Hh]. split; [exact Hb|]. intros fp. symmetry. apply Hh.
Qed.

(** X5: if [pop] undoes [push], [TimeoutError] never leaves
    [get_best_move], and whenever [get_best_move] returns, with a move or
    without, the caller's board is as it was before the call. *)
Theorem get_best_move_restores (w : World) :
  (forall b m, pop (push b m) = b) ->
  match get_best_move time_time piece_defense w with
  | (Return _, w') => w_board w' = w_board w
  | (Raise TimeoutError, _) => False
  | (Raise _, _) => True
  end.
Proof.
  intros Hpop.
  exact (get_best_move_frame time_time piece_defense Hpop (w_board w) w eq_refl).
Qed.

Lemma leaf_value_run (w : World) :
  exists v w', leaf_value w = (Return (v, None), w') /\ w_board w' = w_board w.
Proof.
  unfold leaf_value, bind, call_evaluate, get_board, get_self, ret.
  pose proof (evaluate_board (evaluator (w_engine w)) (w_board w)) as Hb.
  destruct (evaluate (evaluator (w_engine w)) (w_board w)) as [[v ev] b].
  cbn in Hb. subst b. eexists _, _. split; reflexivity.
Qed.

Lemma is_time_up_run (w : World) :
  exists up, is_time_up time_time w
             = (Return up, mkWorld (w_engine w) (w_board w) (S (w_ticks w))).
Proof. eexists. reflexivity. Qed.

Lemma alpha_beta_game_over (depth : nat) (alpha beta : pyfloat) (maximizing : bool)
    (w : World) :
  is_game_over (w_board w) = true ->
  exists w', w_board w' = w_board w
    /\ (alpha_beta time_time piece_defense depth alpha beta maximizing w
          = (Raise TimeoutError, w')
        \/ exists v, alpha_beta time_time piece_defense depth alpha beta maximizing w
                     = (Return (v, None), w')).
Proof.
  intros Hover.
  destruct (is_time_up_run w) as [up Hup].
  assert (Hgo : alpha_beta time_time piece_defense depth alpha beta maximizing w
                = if up then (Raise TimeoutError,
                              mkWorld (w_engine w) (w_board w) (S (w_ticks w)))
                  else leaf_value (mkWorld (w_engine w) (w_board w) (S (w_ticks w)))).
  { destruct depth as [|d]; cbn [alpha_beta]; unfold bind at 1; rewrite Hup;
      destruct up; try reflexivity.
    unfold bind, get_board. cbn [w_board]. rewrite Hover. reflexivity. }
  rewrite Hgo. destruct up.
  - eexists. split; [|left; reflexivity]. reflexivity.
  - destruct (leaf_value_run (mkWorld (w_engine w) (w_board w) (S (w_ticks w))))
      as (v & w' & E & Hb).
    exists w'. split; [exact Hb|]. right. exists v. exact E.
Qed.

Lemma deepening_loop_game_over (fuel : nat) :
  forall current_depth w,
    is_game_over (w_board w) = true ->
    fst (deepening_loop time_time piece_defense fuel current_depth None w) = Return None.
Proof.
  induction fuel as [|fuel IH]; intros current_depth w Hover; [reflexivity|].
  cbn [deepening_loop]. unfold bind at 1. unfold get_self at 1.
  destruct (current_depth <=? depth (w_engine w)); [|reflexivity].
  unfold bind at 1. destruct (is_time_up_run w) as [up ->].
  destruct up; [reflexivity|].
  unfold bind at 1. unfold swallow_timeout.
  destruct (alpha_beta_game_over (Z.to_nat current_depth) NegInf PosInf true
              (mkWorld (w_engine w) (w_board w) (S (w_ticks w))) Hover)
    as (w' & Hb & [E | [v E]]); rewrite E; [reflexivity|].
  apply IH. rewrite Hb. exact Hover.
Qed.

(** X6: on a position that the rules library reports as over,
    [get_best_move] returns no move, for every depth ceiling, time budget,
    clock and evaluator. *)
Theorem get_best_move_game_over (w : World) :
  is_game_over (w_board w) = true ->
  fst (get_best_move time_time piece_defense w) = Return None.
Proof.
  intros Hover. unfold get_best_move, iterative_deepening.
  unfold bind at 1. unfold time_now at 1.
  unfold bind at 1. unfold modify_self at 1.
  unfold bind at 1. unfold modify_self at 1.
  unfold bind at 1. unfold bind at 1. unfold get_self at 1.
  cbn [w_engine w_board w_ticks].
  match goal with
  | |- context [deepening_loop ?t ?d ?f ?c None ?w1] =>
      pose proof (deepening_loop_game_over f c w1 Hover) as H;
      destruct (deepening_loop t d f c None w1) as [r w2]
  end.
  cbn in H. subst r. reflexivity.
Qed.

End RestoreFacts.

Lemma alpha_beta_restores_witness :
  (forall b m, @pop py_chess (@push py_chess b m) = b)
  /\ match @alpha_beta py_chess stalled_clock shipped_piece_defense
             0 NegInf PosInf true (fresh_world 1 10 queen_ending) with
     | (Return _, w') =>
         w_board w' = w_board (fresh_world 1 10 queen_ending)
         /\ forall fp, default 0 (position_history (w_engine w') !! fp)
                       = default 0 (position_history
                                      (w_engine (fresh_world 1 10 queen_ending)) !! fp)
     | (Raise TimeoutError, w') => w_board w' = w_board (fresh_world 1 10 queen_ending)
     | (Raise _, _) => True
     end.
Proof.
  split; [exact py_chess_pop_push|].
  exact (@alpha_beta_restores py_chess stalled_clock shipped_piece_defense
           0 NegInf PosInf true (fresh_world 1 10 queen_ending) py_chess_pop_push).
Defined.

Lemma get_best_move_restores_witness :
  (forall b m, @pop py_chess (@push py_chess b m) = b)
  /\ match @get_best_move py_chess ticking_clock shipped_piece_defense
             (fresh_world 3 3600 black_mated) with
     | (Return _, w') => w_board w' = w_board (fresh_world 3 3600 black_mated)
     | (Raise TimeoutError, _) => False
     | (Raise _, _) => True
     end.
Proof.
  split; [exact py_chess_pop_push|].
  exact (@get_best_move_restores py_chess ticking_clock shipped_piece_defense
           (fresh_world 3 3600 black_mated) py_chess_pop_push).
Defined.

Lemma get_best_move_game_over_witness :
  @is_game_over py_chess (w_board (fresh_world 3 3600 black_mated)) = true
  /\ fst (@get_best_move py_chess ticking_clock shipped_piece_defense
            (fresh_world 3 3600 black_mated))
     = Return None.
Proof.
  assert (H : @is_game_over py_chess (w_board (fresh_world 3 3600 black_mated)) = true)
    by (vm_compute; reflexivity).
  split; [exact H|].
  exact (@get_best_move_game_over py_chess ticking_clock shipped_piece_defense
           (fresh_world 3 3600 black_mated) H).
Defined.

(** * The engine as shipped *)

Lemma keeps_history_ret {A} (a : A) : keeps_history (ret a).
Proof. intros w. reflexivity. Qed.

Lemma keeps_history_raise {A} (e : exn) : keeps_history (@raise A e).
Proof. intros w. reflexivity. Qed.

Lemma keeps_history_bind_when {A B} (c : M A) (k : A -> M B) (P : A -> Prop) :
  keeps_history c ->
  (forall w a w', c w = (Return a, w') -> P a) ->
  (forall a, P a -> keeps_history (k a)) ->
  keeps_history (bind c k).
Proof.
  intros Hc HP Hk w. unfold bind. specialize (Hc w).
  destruct (c w) as [[a|e] w1] eqn:E; cbn in *; [|exact Hc].
  rewrite (Hk a (HP w a w1 E) w1). exact Hc.
Qed.

Lemma keeps_history_bind {A B} (c : M A) (k : A -> M B) :
  keeps_history c -> (forall a, keeps_history (k a)) -> keeps_history (bind c k).
Proof.
  intros Hc Hk. apply keeps_history_bind_when with (P := fun _ => True); auto.
Qed.

Lemma keeps_history_get_board : keeps_history get_board.
Proof. intros w. reflexivity. Qed.

Lemma keeps_history_get_self : keeps_history get_self.
Proof. intros w. reflexivity. Qed.

Lemma keeps_history_modify_board f : keeps_history (modify_board f).
Proof. intros w. reflexivity. Qed.

Lemma keeps_history_swallow_timeout {A} (c : M A) :
  keeps_history c -> keeps_history (swallow_timeout c).
Proof.
  intros Hc w. specialize (Hc w). unfold swallow_timeout.
  destruct (c w) as [[a|[]] w1]; exact Hc.
Qed.

Create HintDb history.
#[local] Hint Resolve keeps_history_ret keeps_history_raise keeps_history_get_board
  keeps_history_get_self keeps_history_modify_board : history.

Ltac history_step :=
  repeat first
    [ solve [ auto with history ]
    | apply keeps_history_bind; [ | intros ? ]
    | match goal with
      | |- keeps_history (if ?c then _ else _) => destruct c
      | |- keeps_history (match ?x with Some _ => _ | None => _ end) => destruct x
      end ].

Section HistoryFacts.
Context {rules : RulesEngine}.
Variable piece_defense : option (Board -> Q).

Lemma keeps_history_call_evaluate : keeps_history call_evaluate.
Proof.
  intros w. unfold call_evaluate.
  destruct (evaluate (evaluator (w_engine w)) (w_board w)) as [[v ev] b]. reflexivity.
Qed.

Lemma keeps_history_call_piece_defense :
  keeps_history (call_piece_defense piece_defense).
Proof. unfold call_piece_defense. history_step. Qed.

#[local] Hint Resolve keeps_history_call_evaluate keeps_history_call_piece_defense
  : history.

Lemma keeps_history_reply_penalties moving_piece l :
  forall score, keeps_history (reply_penalties moving_piece l score).
Proof.
  induction l as [|r l IH]; intros score; cbn [reply_penalties]; history_step.
Qed.

Lemma keeps_history_check_score move moving_piece :
  keeps_history (check_score move moving_piece).
Proof.
  unfold check_score. history_step. cbn zeta. apply keeps_history_reply_penalties.
Qed.

Lemma keeps_history_repetition_score move : keeps_history (repetition_score move).
Proof. unfold repetition_score. history_step. Qed.

Lemma keeps_history_defense_score move :
  keeps_history (defense_score piece_defense move).
Proof. unfold defense_score. history_step. Qed.

#[local] Hint Resolve keeps_history_check_score keeps_history_repetition_score
  keeps_history_defense_score : history.

Lemma keeps_history_move_score move : keeps_history (move_score piece_defense move).
Proof. unfold move_score. history_step. Qed.

Lemma keeps_history_score_moves moves :
  keeps_history (score_moves piece_defense moves).
Proof.
  induction moves as [|move rest IH]; cbn [score_moves];
    [apply keeps_history_ret|].
  apply keeps_history_bind; [apply keeps_history_move_score | intros score].
  apply keeps_history_bind; [apply IH | intros scores; apply keeps_history_ret].
Qed.

Lemma keeps_history_order_moves moves :
  keeps_history (order_moves piece_defense moves).
Proof. unfold order_moves. history_step. apply keeps_history_score_moves. Qed.

Lemma keeps_history_leaf_value : keeps_history leaf_value.
Proof. unfold leaf_value. history_step. Qed.

End HistoryFacts.

Section ShippedFacts.
Context {rules : RulesEngine}.
Variable time_time : nat -> Q.

Lemma keeps_history_is_time_up : keeps_history (is_time_up time_time).
Proof. intros w. reflexivity. Qed.

(** Line 65 fails on the first move of the list: on the engine as shipped
    [order_moves] hands back a list only when it was given none. *)
Lemma shipped_order_moves_returns (moves ordered : list Move) (w w' : World) :
  order_moves shipped_piece_defense moves w = (Return ordered, w') -> ordered = [].
Proof.
  destruct moves as [|move rest]; intros H.
  - injection H as <- _. reflexivity.
  - pose proof (order_moves_fails move rest w) as Hf. rewrite H in Hf. discriminate.
Qed.

Lemma keeps_history_shipped_alpha_beta (depth : nat) (alpha beta : pyfloat)
    (maximizing : bool) :
  keeps_history (alpha_beta time_time shipped_piece_defense depth alpha beta maximizing).
Proof.
  destruct depth as [|d]; cbn [alpha_beta].
  - apply keeps_history_bind; [apply keeps_history_is_time_up | intros up].
    destruct up; [apply keeps_history_raise|].
    apply keeps_history_bind; [apply keeps_history_get_board | intros board].
    apply keeps_history_leaf_value.
  - apply keeps_history_bind; [apply keeps_history_is_time_up | intros up].
    destruct up; [apply keeps_history_raise|].
    apply keeps_history_bind; [apply keeps_history_get_board | intros board].
    destruct (is_game_over board); [apply keeps_history_leaf_value|].
    cbn zeta.
    apply keeps_history_bind_when with (P := fun ordered => ordered = []).
    + apply keeps_history_order_moves.
    + intros w ordered w'. apply shipped_order_moves_returns.
    + intros ordered ->. destruct maximizing; apply keeps_history_ret.
Qed.

Lemma shipped_alpha_beta_no_move (depth : nat) (alpha beta : pyfloat)
    (maximizing : bool) :
  triple (fun _ => True)
         (alpha_beta time_time shipped_piece_defense depth alpha beta maximizing)
         (fun r _ => snd r = None) (fun _ => True).
Proof.
  assert (Hleaf : triple (fun _ : World => True) leaf_value
                         (fun r _ => snd r = None) (fun _ => True)).
  { intros w _. destruct (leaf_value_run w) as (v & w' & -> & _). reflexivity. }
  assert (Htime : triple (fun _ : World => True) (is_time_up time_time)
                         (fun _ _ => True) (fun _ => True)).
  { intros w _. exact I. }
  destruct depth as [|d]; cbn [alpha_beta].
  - eapply triple_bind; [exact Htime | intros up].
    destruct up; [intros w _; exact I|].
    eapply triple_bind with (Q := fun _ _ => True); [intros w _; exact I | intros board].
    exact Hleaf.
  - eapply triple_bind; [exact Htime | intros up].
    destruct up; [intros w _; exact I|].
    eapply triple_bind with (Q := fun _ _ => True); [intros w _; exact I | intros board].
    destruct (is_game_over board); [exact Hleaf|].
    cbn zeta.
    eapply triple_bind with (Q := fun ordered _ => ordered = []).
    + intros w _.
      destruct (order_moves shipped_piece_defense (legal_moves board) w)
        as [[ordered|[]] w'] eqn:E; try exact I.
      eapply shipped_order_moves_returns, E.
    + intros ordered w ->. destruct maximizing; reflexivity.
Qed.

Lemma keeps_history_shipped_deepening_loop (fuel : nat) :
  forall current_depth best_move,
    keeps_history (deepening_loop time_time shipped_piece_defense fuel current_depth
                                  best_move).
Proof.
  induction fuel as [|fuel IH]; intros current_depth best_move; cbn [deepening_loop];
    [apply keeps_history_ret|].
  apply keeps_history_bind; [apply keeps_history_get_self | intros self].
  destruct (current_depth <=? depth self); [|apply keeps_history_ret].
  apply keeps_history_bind; [apply keeps_history_is_time_up | intros up].
  destruct up; [apply keeps_history_ret|].
  apply keeps_history_bind;
    [apply keeps_history_swallow_timeout, keeps_history_shipped_alpha_beta | intros r].
  destruct r as [[v move]|]; [apply IH | apply keeps_history_ret].
Qed.

Lemma shipped_deepening_loop_no_move (fuel : nat) :
  forall current_depth,
    triple (fun _ => True)
           (deepening_loop time_time shipped_piece_defense fuel current_depth None)
           (fun r _ => r = None) (fun _ => False).
Proof.
  induction fuel as [|fuel IH]; intros current_depth; cbn [deepening_loop];
    [intros w _; reflexivity|].
  eapply triple_bind with (Q := fun _ _ => True); [intros w _; exact I | intros self].
  destruct (current_depth <=? depth self); [|intros w _; reflexivity].
  eapply triple_bind with (Q := fun _ _ => True); [intros w _; exact I | intros up].
  destruct up; [intros w _; reflexivity|].
  eapply triple_bind;
    [apply triple_swallow_timeout, shipped_alpha_beta_no_move | intros r].
  destruct r as [[v move]|]; [|intros w _; reflexivity].
  intros w Hmove. cbn in Hmove. subst move. apply IH. exact I.
Qed.

(** After a request the engine as shipped holds an empty history, however
    the request ended. *)
Lemma shipped_get_best_move_history (w : World) :
  position_history (w_engine (snd (get_best_move time_time shipped_piece_defense w))) = ∅.
Proof.
  unfold get_best_move, iterative_deepening.
  unfold bind at 1. unfold time_now at 1.
  unfold bind at 1. unfold modify_self at 1.
  unfold bind at 1. unfold modify_self at 1.
  match goal with
  | |- context [bind ?c ?k ?w1] =>
      assert (Hk : keeps_history (bind c k));
      [ | rewrite (Hk w1); reflexivity ]
  end.
  apply keeps_history_bind.
  - apply keeps_history_bind; [apply keeps_history_get_self | intros self].
    apply keeps_history_shipped_deepening_loop.
  - intros best_move. apply keeps_history_bind; [|intros ?; apply keeps_history_ret].
    intros w'. reflexivity.
Qed.

End ShippedFacts.

Section ServedFacts.
Context {rules : RulesEngine}.

Lemma served_history (e : ChessEngine) : served e -> position_history e = ∅.
Proof.
  intros H. destruct H; [reflexivity | apply shipped_get_best_move_history].
Qed.

Variable time_time : nat -> Q.


(** X7: the engine as shipped never names a move.  Whatever the position,
    the depth ceiling, the time budget and the clock, when [get_best_move]
    returns it returns [None]. *)
Theorem shipped_get_best_move_no_move (w : World) (move : Move) :
  fst (get_best_move time_time shipped_piece_defense w) <> Return (Some move).
Proof.
  intros H.
  assert (Ht : triple (fun _ => True) (get_best_move time_time shipped_piece_defense)
                      (fun r _ => r = None) (fun _ => True)).
  { unfold get_best_move, iterative_deepening.
    eapply triple_bind with (Q := fun _ _ => True); [intros ? _; exact I | intros now].
    eapply triple_bind with (Q := fun _ _ => True); [intros ? _; exact I | intros ?].
    eapply triple_bind with (Q := fun _ _ => True); [intros ? _; exact I | intros ?].
    eapply triple_bind with (Q := fun r _ => r = None).
    - eapply triple_bind with (Q := fun _ _ => True); [intros ? _; exact I | intros self].
      eapply triple_weaken; [| | |apply shipped_deepening_loop_no_move]; auto.
    - intros best_move.
      eapply triple_bind with (Q := fun _ _ => best_move = None);
        [intros ? Hb; exact Hb | intros ?].
      intros ? Hb. exact Hb. }
  specialize (Ht w I).
  destruct (get_best_move time_time shipped_piece_defense w) as [[r|e] w'];
    cbn in H; [|discriminate].
  injection H as ->. discriminate.
Qed.

End ServedFacts.


(** * The leaf and the counts of the history *)

Lemma counted_seen (h : gmap string Z) (k : string) :
  match h !! k with None => True | Some n => 1 <= n end ->
  counted h k = seen h k.
Proof.
  unfold counted, seen. destruct (h !! k) as [n|]; intros H.
  - transitivity true.
    + apply negb_true_iff, Z.eqb_neq. cbn. lia.
    + symmetry. apply bool_decide_eq_true_2. eauto.
  - transitivity false; [reflexivity|].
    symmetry. apply bool_decide_eq_false_2. intros [x Hx]. discriminate.
Qed.

Lemma counts_nonneg_same (h h' : gmap string Z) :
  counts_nonneg h -> same_counts h h' -> counts_nonneg h'.
Proof.
  intros Hn Hs fp n Hfp. specialize (Hs fp). rewrite Hfp in Hs. cbn in Hs.
  destruct (h !! fp) as [m|] eqn:Hm; cbn in Hs; [|lia].
  subst m. eapply Hn, Hm.
Qed.

Lemma bind_eq {A B} (c c' : M A) (k k' : A -> M B) (w : World) :
  c w = c' w ->
  (forall a w', c' w = (Return a, w') -> k a w' = k' a w') ->
  bind c k w = bind c' k' w.
Proof.
  intros Hc Hk. unfold bind. rewrite Hc.
  destruct (c' w) as [[a|e] w'] eqn:E; [apply Hk; reflexivity | reflexivity].
Qed.

Lemma triple_run {A} (P : World -> Prop) (c : M A) Q T w a w' :
  triple P c Q T -> P w -> c w = (Return a, w') -> Q a w'.
Proof. intros H Hw E. specialize (H w Hw). rewrite E in H. exact H. Qed.

Section CountFacts.
Context {rules : RulesEngine}.
Variable time_time : nat -> Q.
Variable piece_defense : option (Board -> Q).
Hypothesis pop_push : forall b m, pop (push b m) = b.

Lemma leaf_value_counted_eq (w : World) :
  fresh_or_entered w -> leaf_value_counted w = leaf_value w.
Proof.
  unfold fresh_or_entered. intros H.
  unfold leaf_value_counted, leaf_value, bind, call_evaluate, get_board, get_self, ret.
  pose proof (evaluate_board (evaluator (w_engine w)) (w_board w)) as Hb.
  destruct (evaluate (evaluator (w_engine w)) (w_board w)) as [[v ev] b].
  cbn in Hb. subst b. cbn [w_engine w_board w_ticks fst snd].
  change (position_history (set_evaluator ev (w_engine w)))
    with (position_history (w_engine w)).
  rewrite (counted_seen _ _ H). reflexivity.
Qed.

(** The state in which [search_child] starts the search of the child *)
Lemma search_child_ext (move : Move) (c1 c2 : M (pyfloat * option Move)) (w : World) :
  let board := push (w_board w) move in
  let h := position_history (w_engine w) in
  let entered :=
    mkWorld (set_position_history
               (<[board_fen board := default 0 (h !! board_fen board) + 1]> h)
               (w_engine w))
            board (w_ticks w) in
  c1 entered = c2 entered ->
  search_child move c1 w = search_child move c2 w.
Proof.
  cbn zeta. intros H.
  unfold search_child, bind, modify_board, get_board, modify_self, on_timeout_reraise.
  cbn [w_engine w_board w_ticks]. rewrite H. reflexivity.
Qed.

Lemma alpha_beta_counted_eq (depth : nat) :
  forall alpha beta maximizing w,
    counts_nonneg (position_history (w_engine w)) ->
    (depth = O \/ is_game_over (w_board w) = true -> fresh_or_entered w) ->
    alpha_beta_counted time_time piece_defense depth alpha beta maximizing w
    = alpha_beta time_time piece_defense depth alpha beta maximizing w.
Proof.
  induction depth as [|d IH]; intros alpha beta maximizing w Hn Hleaf;
    cbn [alpha_beta alpha_beta_counted].
  - apply bind_eq; [reflexivity | intros up w1 E].
    injection E as <- <-.
    destruct (negb _); [reflexivity|].
    apply bind_eq; [reflexivity | intros board w2 E]. injection E as <- <-.
    apply leaf_value_counted_eq. apply Hleaf. left. reflexivity.
  - apply bind_eq; [reflexivity | intros up w1 E].
    injection E as <- <-.
    destruct (negb _); [reflexivity|].
    apply bind_eq; [reflexivity | intros board w2 E]. injection E as <- <-.
    cbn [w_board].
    destruct (is_game_over (w_board w)) eqn:Hover.
    { apply leaf_value_counted_eq. apply Hleaf. right. reflexivity. }
    cbn zeta.
    apply bind_eq; [reflexivity | intros ordered w2 E].
    assert (Hinv : w_board w2 = w_board w
                   /\ counts_nonneg (position_history (w_engine w2))).
    { pose proof (triple_run _ _ _ _
                    (mkWorld (w_engine w) (w_board w) (S (w_ticks w))) _ _
                    (order_moves_frame piece_defense pop_push (w_board w)
                       (position_history (w_engine w)) (legal_moves (w_board w))
                       (fun _ => True))
                    (conj eq_refl (same_counts_refl _)) E) as [Hb Hs].
      split; [exact Hb | eapply counts_nonneg_same; eassumption]. }
    clear E Hleaf Hn Hover. revert w2 Hinv.
    assert (Hchild : forall move a bt mx w2,
               w_board w2 = w_board w ->
               counts_nonneg (position_history (w_engine w2)) ->
               search_child move (alpha_beta_counted time_time piece_defense d a bt mx) w2
               = search_child move (alpha_beta time_time piece_defense d a bt mx) w2).
    { intros move a bt mx w2 Hb Hn2. apply search_child_ext. apply IH.
      - cbn. intros fp n Hfp.
        destruct (decide (fp = board_fen (push (w_board w2) move))) as [->|Hne].
        + rewrite lookup_insert_eq in Hfp. injection Hfp as <-.
          destruct (position_history (w_engine w2) !! _) as [m|] eqn:Hm; cbn; [|lia].
          specialize (Hn2 _ _ Hm). lia.
        + rewrite lookup_insert_ne in Hfp
            by (intros Heq; apply Hne; symmetry; exact Heq).
          eapply Hn2, Hfp.
      - intros _. unfold fresh_or_entered. cbn. rewrite lookup_insert_eq.
        destruct (position_history (w_engine w2) !! _) as [m|] eqn:Hm; cbn; [|lia].
        specialize (Hn2 _ _ Hm). lia. }
    assert (Hafter : forall move a bt mx w2 eval w3,
               w_board w2 = w_board w ->
               counts_nonneg (position_history (w_engine w2)) ->
               search_child move (alpha_beta time_time piece_defense d a bt mx) w2
               = (Return eval, w3) ->
               w_board w3 = w_board w
               /\ counts_nonneg (position_history (w_engine w3))).
    { intros move a bt mx w2 eval w3 Hb Hn2 E.
      pose proof (triple_run _ _ _ _ _ _ _
                    (search_child_frame pop_push (w_board w)
                       (position_history (w_engine w2)) move _
                       (fun b' h' => alpha_beta_frame time_time piece_defense pop_push d
                                       a bt mx b' h'))
                    (conj Hb (same_counts_refl _)) E) as [Hb3 Hs3].
      split; [exact Hb3 | eapply counts_nonneg_same; eassumption]. }
    destruct maximizing.
    + generalize NegInf (@None Move) alpha.
      induction ordered as [|move rest IHl]; intros best_eval best_move a w2 [Hb Hn2];
        [reflexivity|].
      apply bind_eq; [apply Hchild; assumption | intros eval w3 E].
      pose proof (Hafter _ _ _ _ _ _ _ Hb Hn2 E) as Hinv3.
      destruct (float_ltb best_eval eval); cbn zeta;
        (destruct (float_leb beta (float_max a eval));
         [reflexivity | apply IHl; exact Hinv3]).
    + generalize PosInf (@None Move) beta.
      induction ordered as [|move rest IHl]; intros best_eval best_move bt w2 [Hb Hn2];
        [reflexivity|].
      apply bind_eq; [apply Hchild; assumption | intros eval w3 E].
      pose proof (Hafter _ _ _ _ _ _ _ Hb Hn2 E) as Hinv3.
      destruct (float_ltb eval best_eval); cbn zeta;
        (destruct (float_leb (float_min bt eval) alpha);
         [reflexivity | apply IHl; exact Hinv3]).
Qed.

Lemma alpha_beta_game_over_history (depth : nat) (alpha beta : pyfloat)
    (maximizing : bool) (w : World) :
  is_game_over (w_board w) = true ->
  position_history
    (w_engine (snd (alpha_beta time_time piece_defense depth alpha beta maximizing w)))
  = position_history (w_engine w).
Proof.
  intros Hover.
  destruct (is_time_up_run time_time w) as [up Hup].
  assert (Hgo : alpha_beta time_time piece_defense depth alpha beta maximizing w
                = if up then (Raise TimeoutError,
                              mkWorld (w_engine w) (w_board w) (S (w_ticks w)))
                  else leaf_value (mkWorld (w_engine w) (w_board w) (S (w_ticks w)))).
  { destruct depth as [|d]; cbn [alpha_beta]; unfold bind at 1; rewrite Hup;
      destruct up; try reflexivity.
    unfold bind, get_board. cbn [w_board]. rewrite Hover. reflexivity. }
  rewrite Hgo. destruct up; [reflexivity|].
  apply (keeps_history_leaf_value (mkWorld (w_engine w) (w_board w) (S (w_ticks w)))).
Qed.

Lemma deepening_loop_counted_eq (fuel : nat) :
  forall current_depth best_move w,
    1 <= current_depth ->
    counts_nonneg (position_history (w_engine w)) ->
    (is_game_over (w_board w) = true -> fresh_or_entered w) ->
    deepening_loop_counted time_time piece_defense fuel current_depth best_move w
    = deepening_loop time_time piece_defense fuel current_depth best_move w.
Proof.
  induction fuel as [|fuel IH]; intros current_depth best_move w Hd Hn Hroot;
    cbn [deepening_loop deepening_loop_counted]; [reflexivity|].
  apply bind_eq; [reflexivity | intros self w1 E]. injection E as <- <-.
  destruct (current_depth <=? depth (w_engine w)); [|reflexivity].
  apply bind_eq; [reflexivity | intros up w1 E]. injection E as <- <-.
  destruct (negb _); [reflexivity|].
  set (w1 := mkWorld (w_engine w) (w_board w) (S (w_ticks w))).
  assert (Heq : alpha_beta_counted time_time piece_defense (Z.to_nat current_depth)
                  NegInf PosInf true w1
                = alpha_beta time_time piece_defense (Z.to_nat current_depth)
                    NegInf PosInf true w1).
  { apply alpha_beta_counted_eq; [exact Hn|].
    intros [H0|Hover]; [lia | exact (Hroot Hover)]. }
  apply bind_eq; [unfold swallow_timeout; rewrite Heq; reflexivity | intros r w2 E].
  destruct r as [[v move]|]; [|reflexivity].
  unfold swallow_timeout in E.
  destruct (alpha_beta time_time piece_defense (Z.to_nat current_depth) NegInf PosInf true w1)
    as [[r|[]] w2'] eqn:Hrun; try discriminate.
  injection E as -> ->.
  pose proof (triple_run _ _ _ _ w1 _ _
                (alpha_beta_frame time_time piece_defense pop_push (Z.to_nat current_depth)
                   NegInf PosInf true (w_board w) (position_history (w_engine w)))
                (conj eq_refl (same_counts_refl _)) Hrun) as [Hb Hs].
  apply IH; [lia | eapply counts_nonneg_same; eassumption |].
  rewrite Hb. intros Hover.
  pose proof (alpha_beta_game_over_history (Z.to_nat current_depth) NegInf PosInf true
                w1 Hover) as Hh.
  rewrite Hrun in Hh. cbn [snd] in Hh.
  unfold fresh_or_entered. rewrite Hh, Hb. exact (Hroot Hover).
Qed.

Lemma get_best_move_counted_eq (w : World) :
  get_best_move_counted time_time piece_defense w
  = get_best_move time_time piece_defense w.
Proof.
  unfold get_best_move_counted, get_best_move, iterative_deepening.
  apply bind_eq; [reflexivity | intros now w1 E]. injection E as <- <-.
  apply bind_eq; [reflexivity | intros x w1 E]. injection E as <- <-.
  apply bind_eq; [reflexivity | intros y w1 E]. injection E as <- <-.
  apply bind_eq; [|intros; reflexivity].
  apply bind_eq; [reflexivity | intros self w1 E]. injection E as <- <-.
  apply deepening_loop_counted_eq; [lia | intros fp n H; discriminate |].
  intros _. exact I.
Qed.


End CountFacts.


(** * Depth ceilings and time budgets that are not positive *)

Section BudgetFacts.
Context {rules : RulesEngine}.
Variable time_time : nat -> Q.
Variable piece_defense : option (Board -> Q).

(** When the depth ceiling is below one, or the first deadline check finds
    the budget used up, the loop of [iterative_deepening] ends before any
    call of [alpha_beta]. *)
Lemma get_best_move_at_once (w : World) :
  depth (w_engine w) <= 0
  \/ (time_limit (w_engine w) < time_time (S (w_ticks w)) - time_time (w_ticks w))%Q ->
  exists n,
    get_best_move time_time piece_defense w
    = (Return None,
       mkWorld (set_position_history ∅
                  (set_start_time (time_time (w_ticks w)) (w_engine w)))
               (w_board w) n).
Proof.
  intros H.
  unfold get_best_move, iterative_deepening, bind, time_now, modify_self, get_self.
  cbn [w_engine w_board w_ticks set_position_history set_start_time depth
       time_limit evaluator start_time position_history].
  destruct (Z.to_nat (depth (w_engine w))) as [|fuel] eqn:Hfuel.
  - cbn. eexists. reflexivity.
  - destruct H as [H|Hlate]; [lia|].
    assert (Hd : (1 <=? depth (w_engine w)) = true) by (apply Z.leb_le; lia).
    cbn [deepening_loop]. unfold bind, get_self.
    cbn [w_engine depth set_position_history set_start_time]. rewrite Hd.
    unfold is_time_up, bind, time_now, get_self, ret.
    cbn [w_engine w_board w_ticks start_time time_limit set_position_history
         set_start_time].
    assert (Hup : Qle_bool (time_time (S (w_ticks w)) - time_time (w_ticks w))
                           (time_limit (w_engine w)) = false).
    { apply not_true_is_false. rewrite Qle_bool_iff. apply Qlt_not_le. exact Hlate. }
    rewrite Hup. cbn. eexists. reflexivity.
Qed.

Lemma budget_used_up (limit t0 t1 : Q) :
  ((limit < 0)%Q /\ (t0 <= t1)%Q) \/ ((limit <= 0)%Q /\ (t0 < t1)%Q) ->
  (limit < t1 - t0)%Q.
Proof.
  intros [[Hl Ht]|[Hl Ht]].
  - apply Qlt_le_trans with 0%Q; [exact Hl|].
    unfold Qminus. apply (proj1 (Qle_minus_iff _ _)). exact Ht.
  - apply Qle_lt_trans with 0%Q; [exact Hl|].
    unfold Qminus. apply (proj1 (Qlt_minus_iff _ _)). exact Ht.
Qed.


End BudgetFacts.



(** * Further properties of the evaluator *)

Section ScoreFacts.
Context {rules : RulesEngine}.

(** X10: the infinite scores are kept for checkmate.  [evaluate] returns
    a finite score exactly on the positions that are not checkmate, and
    that score is 0 on stalemate and on insufficient material. *)
Theorem evaluate_finite_iff_no_checkmate (self : ChessEvaluator) (board : Board) :
  ((exists q, evaluate_score self board = Finite q) <-> is_checkmate board = false)
  /\ (is_checkmate board = false ->
      is_stalemate board || is_insufficient_material board = true ->
      evaluate_score self board = Finite 0).
Proof.
  unfold evaluate_score, evaluate.
  destruct (is_checkmate board).
  - split; [|discriminate]. split; [|discriminate].
    intros [q Hq]. destruct (turn board); discriminate.
  - split.
    + split; [reflexivity|]. intros _.
      destruct (is_stalemate board || is_insufficient_material board); [eauto|].
      destruct (_evaluate_mobility board) as [m b'].
      destruct (_is_endgame board); cbn; eauto.
    + intros _ ->. reflexivity.
Qed.

Lemma zsum_shift {A} (f : A -> Z) (l : list A) (acc : Z) :
  fold_left (fun a x => a + f x) l acc = acc + zsum f l.
Proof.
  unfold zsum. revert acc. induction l as [|x l IH]; intros acc; cbn; [lia|].
  rewrite IH, (IH (0 + f x)). lia.
Qed.

Lemma zsum_cons {A} (f : A -> Z) (x : A) (l : list A) :
  zsum f (x :: l) = f x + zsum f l.
Proof. unfold zsum at 1. cbn. rewrite zsum_shift. lia. Qed.

End ScoreFacts.

Lemma piece_at_any_turn b c : piece_at (set_turn b c) = piece_at b.
Proof. reflexivity. Qed.

Lemma pieces_any_turn b c : pieces (set_turn b c) = pieces b.
Proof. unfold pieces. rewrite piece_at_any_turn. reflexivity. Qed.

Lemma king_any_turn b c : king (set_turn b c) = king b.
Proof. unfold king. rewrite pieces_any_turn. reflexivity. Qed.

Lemma set_turn_set_turn b c c' : set_turn (set_turn b c) c' = set_turn b c'.
Proof. reflexivity. Qed.

Lemma set_turn_turn b : set_turn b (turn b) = b.
Proof. destruct b; reflexivity. Qed.

Lemma Finite_opp_involutive (q : Q) : Finite (- - q) = Finite q.
Proof. destruct q as [n d]. unfold Qopp. cbn. rewrite Z.opp_involutive. reflexivity. Qed.

Section TurnFacts.
Context {rules : RulesEngine}.

Hypothesis attacks_any_turn : forall b c, attacks (set_turn b c) = attacks b.
Hypothesis attackers_any_turn : forall b c, attackers (set_turn b c) = attackers b.
Hypothesis is_attacked_by_any_turn :
  forall b c, is_attacked_by (set_turn b c) = is_attacked_by b.
Hypothesis castling_any_turn :
  forall b c, has_castling_rights (set_turn b c) = has_castling_rights b.

Lemma is_pawn_of_any_turn b c : is_pawn_of (set_turn b c) = is_pawn_of b.
Proof. unfold is_pawn_of. rewrite piece_at_any_turn. reflexivity. Qed.

Ltac any_turn :=
  intros;
  cbv beta delta
    [_is_endgame _evaluate_material_and_position _evaluate_king_safety
     _evaluate_king_attackers occupancy_bonus
     _evaluate_pawn_shield _evaluate_king_open_files _evaluate_center_control
     _evaluate_piece_activity _is_attacking_king_zone _evaluate_king_attack
     _evaluate_piece_coordination _evaluate_piece_protection _evaluate_bishop_pair
     _evaluate_rook_coordination _evaluate_king_centralization _evaluate_passed_pawns
     _is_passed_pawn _is_open_file _evaluate_pawn_chains _evaluate_isolated_pawns
     _evaluate_doubled_pawns _evaluate_pawn_structure];
  rewrite ?attacks_any_turn, ?attackers_any_turn, ?is_attacked_by_any_turn,
    ?piece_at_any_turn, ?pieces_any_turn, ?king_any_turn, ?is_pawn_of_any_turn;
  reflexivity.

Lemma _is_endgame_any_turn b c : _is_endgame (set_turn b c) = _is_endgame b.
Proof. any_turn. Qed.

Lemma material_any_turn self b c :
  _evaluate_material_and_position self (set_turn b c)
  = _evaluate_material_and_position self b.
Proof. any_turn. Qed.

Lemma king_safety_any_turn b c :
  _evaluate_king_safety (set_turn b c) = _evaluate_king_safety b.
Proof. any_turn. Qed.

Lemma mobility_any_turn b c :
  fst (_evaluate_mobility (set_turn b c)) = fst (_evaluate_mobility b).
Proof. unfold _evaluate_mobility. cbn [fold_left]. rewrite !set_turn_set_turn. reflexivity. Qed.

Lemma mobility_board_any_turn b :
  snd (_evaluate_mobility b) = b.
Proof. unfold _evaluate_mobility. cbn [fold_left snd]. rewrite !set_turn_set_turn. apply set_turn_turn. Qed.

Lemma pawn_structure_any_turn b c :
  _evaluate_pawn_structure (set_turn b c) = _evaluate_pawn_structure b.
Proof. any_turn. Qed.

Lemma center_control_any_turn b c :
  _evaluate_center_control (set_turn b c) = _evaluate_center_control b.
Proof. any_turn. Qed.

Lemma piece_activity_any_turn b c :
  _evaluate_piece_activity (set_turn b c) = _evaluate_piece_activity b.
Proof. any_turn. Qed.

Lemma king_attack_any_turn b c :
  _evaluate_king_attack (set_turn b c) = _evaluate_king_attack b.
Proof. any_turn. Qed.

Lemma piece_coordination_any_turn b c :
  _evaluate_piece_coordination (set_turn b c) = _evaluate_piece_coordination b.
Proof. any_turn. Qed.

Lemma king_centralization_any_turn b c :
  _evaluate_king_centralization (set_turn b c) = _evaluate_king_centralization b.
Proof. any_turn. Qed.

Lemma passed_pawns_any_turn b c :
  _evaluate_passed_pawns (set_turn b c) = _evaluate_passed_pawns b.
Proof. any_turn. Qed.

Lemma evaluate_white_frame self b :
  exists s,
    forall c, is_checkmate (set_turn b c) = false ->
              is_stalemate (set_turn b c) || is_insufficient_material (set_turn b c) = false ->
              evaluate_score self (set_turn b c) = Finite (if c then s else - s)%Q.
Proof.
  destruct (_is_endgame b) eqn:Hendgame; eexists; intros c Hmate Hdraw;
  unfold evaluate_score, evaluate; rewrite Hmate, Hdraw;
  rewrite _is_endgame_any_turn, Hendgame, material_any_turn;
  rewrite ?king_centralization_any_turn, ?passed_pawns_any_turn, ?king_safety_any_turn;
  rewrite (surjective_pairing (_evaluate_mobility (set_turn b c)));
  rewrite mobility_any_turn, mobility_board_any_turn;
  rewrite ?pawn_structure_any_turn, ?center_control_any_turn, ?piece_activity_any_turn,
    ?king_attack_any_turn, ?piece_coordination_any_turn;
  cbv beta iota zeta delta [fst snd];
  rewrite !castling_any_turn; change (turn (set_turn b c)) with c; reflexivity.
Qed.

(** X12: the score is relative to the side to move.  With rules whose
    attack and castling queries do not read the side to move, a position
    that is over for neither side scores, with the other side to move,
    the negation of what it scores now. *)
Theorem evaluate_other_side_to_move (self : ChessEvaluator) (board : Board) :
  let other := set_turn board (negb (turn board)) in
  is_checkmate board = false ->
  is_stalemate board || is_insufficient_material board = false ->
  is_checkmate other = false ->
  is_stalemate other || is_insufficient_material other = false ->
  exists s, evaluate_score self board = Finite s
            /\ evaluate_score self other = Finite (- s).
Proof.
  intros other Hmate Hdraw Hmate' Hdraw'.
  destruct (evaluate_white_frame self board) as [s Hs].
  pose proof (Hs (turn board)) as Hnow. rewrite set_turn_turn in Hnow.
  specialize (Hnow Hmate Hdraw). specialize (Hs (negb (turn board)) Hmate' Hdraw').
  fold other in Hs. rewrite Hnow, Hs.
  destruct (turn board); cbn [negb].
  - exists s. split; reflexivity.
  - exists (- s)%Q. split; [reflexivity|]. rewrite Finite_opp_involutive. reflexivity.
Qed.

End TurnFacts.

Lemma attacks_from_any_turn b c :
  PyChess.attacks_from (set_turn b c) = PyChess.attacks_from b.
Proof.
  unfold PyChess.attacks_from, PyChess.occupied. rewrite piece_at_any_turn. reflexivity.
Qed.

Lemma occupied_co_any_turn b c : PyChess.occupied_co (set_turn b c) = PyChess.occupied_co b.
Proof. unfold PyChess.occupied_co. rewrite piece_at_any_turn. reflexivity. Qed.

Lemma py_chess_attacks_any_turn b c : @attacks py_chess (set_turn b c) = @attacks py_chess b.
Proof.
  unfold attacks, py_chess, PyChess.attacks. rewrite attacks_from_any_turn. reflexivity.
Qed.

Lemma py_chess_attackers_any_turn b c :
  @attackers py_chess (set_turn b c) = @attackers py_chess b.
Proof.
  unfold attackers, py_chess, PyChess.attackers.
  rewrite attacks_from_any_turn, occupied_co_any_turn. reflexivity.
Qed.

Lemma py_chess_is_attacked_by_any_turn b c :
  @is_attacked_by py_chess (set_turn b c) = @is_attacked_by py_chess b.
Proof.
  unfold is_attacked_by, py_chess, PyChess.is_attacked_by.
  rewrite attacks_from_any_turn, occupied_co_any_turn. reflexivity.
Qed.

Lemma py_chess_castling_any_turn b c :
  @has_castling_rights py_chess (set_turn b c) = @has_castling_rights py_chess b.
Proof.
  unfold has_castling_rights, py_chess, PyChess.has_castling_rights,
    PyChess.clean_castling_rights.
  rewrite piece_at_any_turn. reflexivity.
Qed.

Lemma evaluate_other_side_to_move_witness :
  exists s,
    @evaluate_score py_chess ChessEvaluator_init queen_ending = Finite s
    /\ @evaluate_score py_chess ChessEvaluator_init
         (set_turn queen_ending (negb (turn queen_ending))) = Finite (- s).
Proof.
  apply (@evaluate_other_side_to_move py_chess
           py_chess_attacks_any_turn py_chess_attackers_any_turn
           py_chess_is_attacked_by_any_turn py_chess_castling_any_turn);
    vm_compute; reflexivity.
Defined.

(** * Ranges, files and ranks *)

Lemma py_range_up (start stop r : Z) :
  In r (py_range start stop 1) <-> start <= r < stop.
Proof.
  unfold py_range. cbn [Z.ltb Z.compare]. rewrite in_map_iff. split.
  - intros (i & <- & Hi). apply in_seq in Hi.
    replace (stop - start + 1 - 1) with (stop - start) in Hi by lia.
    rewrite Z.div_1_r in Hi. lia.
  - intros Hr. exists (Z.to_nat (r - start)). split; [lia|].
    apply in_seq. replace (stop - start + 1 - 1) with (stop - start) by lia.
    rewrite Z.div_1_r. lia.
Qed.

Lemma py_range_down (start stop r : Z) :
  In r (py_range start stop (-1)) <-> stop < r <= start.
Proof.
  unfold py_range. cbn [Z.ltb Z.compare Z.opp]. rewrite in_map_iff. split.
  - intros (i & <- & Hi). apply in_seq in Hi.
    replace (start - stop - -1 - 1) with (start - stop) in Hi by lia.
    rewrite Z.div_1_r in Hi. lia.
  - intros Hr. exists (Z.to_nat (start - r)). split; [lia|].
    apply in_seq. replace (start - stop - -1 - 1) with (start - stop) by lia.
    rewrite Z.div_1_r. lia.
Qed.

Lemma SQUARES_range (sq : Square) : In sq SQUARES <-> 0 <= sq < 64.
Proof.
  unfold SQUARES. rewrite in_map_iff. split.
  - intros (i & <- & Hi). apply in_seq in Hi. lia.
  - intros H. exists (Z.to_nat sq). split; [lia|]. apply in_seq. lia.
Qed.

Lemma king_on_board (b : Board) (c : Color) (k : Square) :
  king b c = Some k -> 0 <= k < 64 /\ piece_at b k = Some (mkPiece KING c).
Proof.
  unfold king, pieces. intros H. apply last_Some_elem_of in H.
  apply list_elem_of_In, filter_In in H. destruct H as [Hk Hp].
  split; [apply SQUARES_range; exact Hk|].
  apply bool_decide_eq_true in Hp. exact Hp.
Qed.

Section ShapeFacts.
Context {rules : RulesEngine}.

(** X13: a passed pawn is one with no enemy pawn ahead of it on its own
    file or a neighbouring one.  [_is_passed_pawn] for a pawn of colour
    [c] on [sq] holds exactly when no square of those files on the board,
    on a rank beyond the pawn's towards its promotion, holds a pawn of the
    other colour. *)
Theorem _is_passed_pawn_spec (board : Board) (sq : Square) (c : Color) :
  _is_passed_pawn board sq c = true
  <-> forall f r,
        square_file sq - 1 <= f <= square_file sq + 1 -> 0 <= f < 8 ->
        (if c then square_rank sq < r < 8 else 0 <= r < square_rank sq) ->
        piece_at board (square f r) <> Some (mkPiece PAWN (negb c)).
Proof.
  unfold _is_passed_pawn, range2, is_pawn_of. rewrite forallb_forall. split.
  - intros H f r Hf Hf8 Hr. specialize (H r).
    assert (Hin : In r (py_range (square_rank sq + (if c then 1 else -1))
                                 (if (if c then 1 else -1) =? 1 then 8 else -1)
                                 (if c then 1 else -1))).
    { destruct c; [apply (py_range_up _ 8) | apply (py_range_down _ (-1))]; lia. }
    specialize (H Hin). rewrite forallb_forall in H.
    specialize (H f). rewrite py_range_up in H.
    assert (Hfin : Z.max 0 (square_file sq - 1) <= f < Z.min 8 (square_file sq + 2)) by lia.
    specialize (H Hfin). apply negb_true_iff, bool_decide_eq_false in H. exact H.
  - intros H r Hr. apply forallb_forall. intros f Hf.
    apply py_range_up in Hf. apply negb_true_iff, bool_decide_eq_false.
    apply H; [lia | lia |].
    destruct c; [apply (py_range_up _ 8) in Hr | apply (py_range_down _ (-1)) in Hr]; lia.
Qed.

(** X14: an open file is a file with no pawn.  [_is_open_file] holds
    exactly when none of the eight squares of the file holds a pawn of
    either colour. *)
Theorem _is_open_file_spec (board : Board) (file : Z) :
  _is_open_file board file = true
  <-> forall rank c, 0 <= rank < 8 ->
                     piece_at board (square file rank) <> Some (mkPiece PAWN c).
Proof.
  unfold _is_open_file, range1. rewrite forallb_forall. split.
  - intros H rank c Hrank Hp. specialize (H rank). rewrite py_range_up in H.
    specialize (H Hrank). rewrite Hp in H. discriminate.
  - intros H rank Hrank. apply py_range_up in Hrank.
    destruct (piece_at board (square file rank)) as [[pt c]|] eqn:Hp; [|reflexivity].
    destruct pt; try reflexivity. exfalso. exact (H rank c Hrank Hp).
Qed.

Lemma king_term_range (k : Square) :
  0 <= k < 64 ->
  let file := square_file k in
  let rank := square_rank k in
  1 <= 7 - (Z.min (Z.abs (file - 3)) (Z.abs (file - 4))
            + Z.min (Z.abs (rank - 3)) (Z.abs (rank - 4))) <= 7.
Proof.
  intros Hk. cbn zeta.
  assert (Hf : 0 <= square_file k < 8).
  { unfold square_file. change 7 with (Z.ones 3). rewrite Z.land_ones by lia.
    apply Z.mod_pos_bound. lia. }
  assert (Hr : 0 <= square_rank k < 8).
  { unfold square_rank. rewrite Z.shiftr_div_pow2 by lia. change (2 ^ 3) with 8.
    split; [apply Z.div_pos; lia | apply Z.div_lt_upper_bound; lia]. }
  lia.
Qed.

(** X15: the king-centralisation term is small.  Each king on the board
    counts between 1 and 7 for its side, so the term lies between -7 and
    7, and between -6 and 6 when both kings are on the board. *)
Theorem _evaluate_king_centralization_range (board : Board) :
  exists z,
    _evaluate_king_centralization board = inject_Z z
    /\ -7 <= z <= 7
    /\ (king board WHITE <> None -> king board BLACK <> None -> -6 <= z <= 6).
Proof.
  unfold _evaluate_king_centralization. eexists. split; [reflexivity|].
  unfold zsum, signed, WHITE, BLACK. cbn [fold_left].
  destruct (king board true) as [kw|] eqn:Hw; destruct (king board false) as [kb|] eqn:Hb.
  - pose proof (king_term_range kw (proj1 (king_on_board _ _ _ Hw))) as H1.
    pose proof (king_term_range kb (proj1 (king_on_board _ _ _ Hb))) as H2.
    cbn zeta in H1, H2. split; [lia|]. intros _ _. lia.
  - pose proof (king_term_range kw (proj1 (king_on_board _ _ _ Hw))) as H1.
    cbn zeta in H1. split; [lia|]. intros _ Hn. contradiction.
  - pose proof (king_term_range kb (proj1 (king_on_board _ _ _ Hb))) as H2.
    cbn zeta in H2. split; [lia|]. intros Hn. contradiction.
  - split; [lia|]. intros Hn. contradiction.
Qed.

End ShapeFacts.

Lemma zsum_count {A} (f : A -> Z) (t : A -> bool) (d : Z) (l : list A) :
  (forall x, f x = if t x then d else 0) ->
  zsum f l = d * Z.of_nat (List.length (List.filter t l)).
Proof.
  intros Hf. induction l as [|x l IH].
  - unfold zsum. cbn. lia.
  - rewrite zsum_cons, IH, Hf. cbn [List.filter].
    destruct (t x); cbn [List.length]; lia.
Qed.

Lemma SQUARES_NoDup : List.NoDup SQUARES.
Proof.
  apply NoDup_ListNoDup. unfold SQUARES.
  change (NoDup (Z.of_nat <$> seq 0 64)).
  apply NoDup_fmap_2; [intros x y H; lia | apply NoDup_seq].
Qed.

Section IsolatedFacts.
Context {rules : RulesEngine}.

(** X11: the isolated-pawn term takes 20 off for every isolated pawn,
    White's and Black's alike.  Its value is minus 20 times the number of
    squares of the board that hold an isolated pawn of either colour, so
    Black's isolated pawns lower the score as White's do. *)
Theorem _evaluate_isolated_pawns_counts_both (board : Board) :
  exists squares : list Square,
    List.NoDup squares
    /\ (forall sq, In sq squares <-> 0 <= sq < 64 /\ isolated_pawn board sq)
    /\ _evaluate_isolated_pawns board = -20 * Z.of_nat (List.length squares).
Proof.
  set (lonely := fun (c : Color) (sq : Square) =>
         negb (existsb
                 (fun f => (0 <=? f) && (f <? 8)
                           && existsb (fun r => is_pawn_of board (square f r) c) (range1 8))
                 [square_file sq - 1; square_file sq + 1])).
  set (test := fun sq =>
         match piece_at board sq with
         | Some piece => PieceType_eqb (piece_type piece) PAWN && lonely (color piece) sq
         | None => false
         end).
  assert (Hlonely : forall c sq,
             lonely c sq = true
             <-> forall f r,
                   f = square_file sq - 1 \/ f = square_file sq + 1 ->
                   0 <= f < 8 -> 0 <= r < 8 ->
                   piece_at board (square f r) <> Some (mkPiece PAWN c)).
  { intros c sq. unfold lonely. rewrite negb_true_iff. split.
    - intros H f r Hf Hf8 Hr Hp.
      apply not_true_iff_false in H. apply H. apply existsb_exists.
      exists f. split; [destruct Hf as [-> | ->]; [left | right; left]; reflexivity|].
      apply andb_true_iff. split; [apply andb_true_iff; split; lia|].
      apply existsb_exists. exists r. split; [apply py_range_up; lia|].
      unfold is_pawn_of. apply bool_decide_eq_true. exact Hp.
    - intros H. apply not_true_iff_false. intros He.
      apply existsb_exists in He. destruct He as (f & Hf & He).
      apply andb_true_iff in He. destruct He as [Hf8 He].
      apply andb_true_iff in Hf8. apply existsb_exists in He.
      destruct He as (r & Hr & Hp). apply py_range_up in Hr.
      unfold is_pawn_of in Hp. apply bool_decide_eq_true in Hp.
      apply (H f r); [destruct Hf as [<-|[<-|[]]]; [left | right]; reflexivity
                     | lia | lia | exact Hp]. }
  exists (List.filter test SQUARES).
  split; [apply List.NoDup_filter, SQUARES_NoDup|]. split.
  - intros sq. rewrite filter_In, SQUARES_range. apply and_iff_compat_l.
    unfold test, isolated_pawn. split.
    + destruct (piece_at board sq) as [[pt c]|]; [|discriminate].
      intros H. apply andb_true_iff in H. destruct H as [Hpt Hl].
      apply bool_decide_eq_true in Hpt. cbn in Hpt. subst pt.
      exists c. split; [reflexivity|]. apply Hlonely, Hl.
    + intros (c & -> & H). cbn. apply Hlonely, H.
  - unfold _evaluate_isolated_pawns. apply zsum_count. intros sq. unfold test, lonely.
    destruct (piece_at board sq) as [piece|]; [|reflexivity].
    destruct (PieceType_eqb (piece_type piece) PAWN); [|reflexivity].
    cbn [andb]. match goal with |- context [negb ?e] => destruct (negb e) end;
      [destruct (color piece); reflexivity | reflexivity].
Qed.

End IsolatedFacts.

(** * Deadlines and earlier requests *)

Section DeadlineFacts.
Context {rules : RulesEngine}.
Variable time_time : nat -> Q.
Variable piece_defense : option (Board -> Q).

Lemma is_time_up_passed (w : World) :
  (time_limit (w_engine w) < time_time (w_ticks w) - start_time (w_engine w))%Q ->
  is_time_up time_time w
  = (Return true, mkWorld (w_engine w) (w_board w) (S (w_ticks w))).
Proof.
  intros H. unfold is_time_up, bind, time_now, get_self, ret. cbn.
  assert (Hle : Qle_bool (time_time (w_ticks w) - start_time (w_engine w))
                         (time_limit (w_engine w)) = false).
  { apply not_true_is_false. rewrite Qle_bool_iff. apply Qlt_not_le. exact H. }
  rewrite Hle. reflexivity.
Qed.

(** X16: a search entered after the deadline is cancelled before it
    touches anything.  At every depth [alpha_beta] raises [TimeoutError]
    after one reading of the clock, with the board and the engine as they
    were. *)
Theorem alpha_beta_cancelled (depth : nat) (alpha beta : pyfloat)
    (maximizing_player : bool) (w : World) :
  (time_limit (w_engine w) < time_time (w_ticks w) - start_time (w_engine w))%Q ->
  alpha_beta time_time piece_defense depth alpha beta maximizing_player w
  = (Raise TimeoutError, mkWorld (w_engine w) (w_board w) (S (w_ticks w))).
Proof.
  intros H. destruct depth; cbn [alpha_beta]; unfold bind;
    rewrite (is_time_up_passed w H); reflexivity.
Qed.

(** X17: a budget that is over at the first check buys no move.  When
    the clock's second reading is already more than [time_limit] after
    the first, [get_best_move] returns [None] whatever the position and
    depth, without touching the board. *)
Theorem get_best_move_out_of_time (w : World) :
  (time_limit (w_engine w) < time_time (S (w_ticks w)) - time_time (w_ticks w))%Q ->
  exists w',
    get_best_move time_time piece_defense w = (Return None, w')
    /\ w_board w' = w_board w.
Proof.
  intros H.
  unfold get_best_move, iterative_deepening, bind, time_now, modify_self, get_self.
  cbn [w_engine w_board w_ticks set_position_history set_start_time depth
       time_limit evaluator start_time position_history].
  destruct (Z.to_nat (depth (w_engine w))) as [|fuel] eqn:Hfuel.
  - cbn. eexists. split; reflexivity.
  - cbn [deepening_loop]. unfold bind, get_self.
    cbn [w_engine depth set_position_history set_start_time].
    destruct (1 <=? depth (w_engine w)); [|cbn; eexists; split; reflexivity].
    rewrite is_time_up_passed by exact H.
    cbn. eexists. split; reflexivity.
Qed.

(** X18: a request starts from scratch.  [get_best_move] overwrites the
    start time and the position history before it reads them, so its
    result and the state it leaves do not depend on what an earlier
    request left in those two fields. *)
Theorem get_best_move_forgets (w : World) (earlier_start : Q)
    (earlier_history : gmap string Z) :
  get_best_move time_time piece_defense
    (mkWorld (set_position_history earlier_history
                (set_start_time earlier_start (w_engine w)))
             (w_board w) (w_ticks w))
  = get_best_move time_time piece_defense w.
Proof.
  unfold get_best_move, bind, time_now, modify_self.
  cbn [w_engine w_board w_ticks set_position_history set_start_time depth
       time_limit evaluator start_time position_history].
  reflexivity.
Qed.

End DeadlineFacts.

Lemma alpha_beta_cancelled_witness :
  @alpha_beta py_chess ticking_clock shipped_piece_defense 2 NegInf PosInf true
    (mkWorld (ChessEngine_init 3 1) queen_ending 5)
  = (Raise TimeoutError, mkWorld (ChessEngine_init 3 1) queen_ending 6).
Proof.
  apply (@alpha_beta_cancelled py_chess ticking_clock shipped_piece_defense 2 NegInf PosInf
           true (mkWorld (ChessEngine_init 3 1) queen_ending 5)).
  vm_compute. reflexivity.
Defined.

Lemma get_best_move_out_of_time_witness :
  exists w',
    @get_best_move py_chess ticking_clock shipped_piece_defense
      (fresh_world 3 (1 # 2) queen_ending) = (Return None, w')
    /\ w_board w' = w_board (fresh_world 3 (1 # 2) queen_ending).
Proof.
  apply (@get_best_move_out_of_time py_chess ticking_clock shipped_piece_defense
           (fresh_world 3 (1 # 2) queen_ending)).
  vm_compute. reflexivity.
Defined.

(** * The board window *)

Lemma square_file_mod (sq : Square) : square_file sq = sq mod 8.
Proof. unfold square_file. apply (Z.land_ones sq 3). lia. Qed.

Lemma square_rank_div (sq : Square) : square_rank sq = sq / 8.
Proof. unfold square_rank. apply (Z.shiftr_div_pow2 sq 3). lia. Qed.

Lemma square_file_rank (sq : Square) :
  square (square_file sq) (square_rank sq) = sq.
Proof.
  unfold square. rewrite square_file_mod, square_rank_div.
  pose proof (Z.div_mod sq 8). lia.
Qed.

Lemma square_file_range (sq : Square) : 0 <= square_file sq < 8.
Proof. rewrite square_file_mod. apply Z.mod_pos_bound. lia. Qed.

Lemma square_rank_range (sq : Square) : 0 <= sq < 64 -> 0 <= square_rank sq < 8.
Proof.
  intros H. rewrite square_rank_div. split.
  - apply Z.div_pos; lia.
  - apply Z.div_lt_upper_bound; lia.
Qed.

Lemma cell_div (size k d : Z) : 0 < size -> 0 <= d < size -> (k * size + d) / size = k.
Proof.
  intros Hs Hd. rewrite Z.add_comm, Z.div_add by lia. rewrite Z.div_small by lia. lia.
Qed.

Section GuiFacts.
Variable SQUARE_SIZE : Z.
Hypothesis positive_size : 0 < SQUARE_SIZE.

(** X19: every pixel of the cell drawn for a square is a click on that
    square.  With a positive [SQUARE_SIZE], [get_square_from_pos] at any
    offset inside the cell whose corner [get_pos_from_square] gives
    returns the square itself. *)
Theorem get_square_from_pos_of_cell (sq : Square) (dx dy : Z) :
  0 <= dx < SQUARE_SIZE ->
  0 <= dy < SQUARE_SIZE ->
  let '(x, y) := get_pos_from_square SQUARE_SIZE sq in
  get_square_from_pos SQUARE_SIZE (x + dx, y + dy) = Some sq.
Proof.
  intros Hdx Hdy. unfold get_pos_from_square, get_square_from_pos.
  assert (Hsize : (SQUARE_SIZE =? 0) = false) by (apply Z.eqb_neq; lia).
  rewrite Hsize, !cell_div by assumption.
  replace (7 - (7 - square_rank sq)) with (square_rank sq) by lia.
  rewrite square_file_rank. reflexivity.
Qed.

(** X20: a click inside the eight-by-eight window selects a square of the
    board, and the click lies in the cell drawn for that square. *)
Theorem get_square_from_pos_on_board (x y : Z) :
  0 <= x < 8 * SQUARE_SIZE ->
  0 <= y < 8 * SQUARE_SIZE ->
  exists sq,
    get_square_from_pos SQUARE_SIZE (x, y) = Some sq
    /\ 0 <= sq < 64
    /\ (let '(cx, cy) := get_pos_from_square SQUARE_SIZE sq in
        cx <= x < cx + SQUARE_SIZE /\ cy <= y < cy + SQUARE_SIZE).
Proof.
  intros Hx Hy. unfold get_square_from_pos.
  assert (Hsize : (SQUARE_SIZE =? 0) = false) by (apply Z.eqb_neq; lia).
  rewrite Hsize. eexists. split; [reflexivity|].
  assert (Hfile : 0 <= x / SQUARE_SIZE < 8).
  { split; [apply Z.div_pos; lia | apply Z.div_lt_upper_bound; lia]. }
  assert (Hrank : 0 <= y / SQUARE_SIZE < 8).
  { split; [apply Z.div_pos; lia | apply Z.div_lt_upper_bound; lia]. }
  unfold get_pos_from_square, square.
  set (file := x / SQUARE_SIZE) in *. set (row := y / SQUARE_SIZE) in *.
  assert (Hf : square_file ((7 - row) * 8 + file) = file).
  { rewrite square_file_mod, Z.add_comm, Z.mod_add by lia. apply Z.mod_small. lia. }
  assert (Hr : square_rank ((7 - row) * 8 + file) = 7 - row).
  { rewrite square_rank_div. apply cell_div; lia. }
  rewrite Hf, Hr. split; [lia|].
  replace (7 - (7 - row)) with row by lia.
  pose proof (Z.div_mod x SQUARE_SIZE) as Hxm.
  pose proof (Z.mod_pos_bound x SQUARE_SIZE positive_size) as Hxb.
  pose proof (Z.div_mod y SQUARE_SIZE) as Hym.
  pose proof (Z.mod_pos_bound y SQUARE_SIZE positive_size) as Hyb.
  subst file row. nia.
Qed.

End GuiFacts.

Lemma get_square_from_pos_of_cell_witness :
  get_square_from_pos 80 (320 + 79, 560 + 0) = Some 4.
Proof.
  apply (get_square_from_pos_of_cell 80 ltac:(lia) 4 79 0); lia.
Defined.

Lemma get_square_from_pos_on_board_witness :
  exists sq,
    get_square_from_pos 80 (399, 560) = Some sq
    /\ 0 <= sq < 64
    /\ (let '(cx, cy) := get_pos_from_square 80 sq in
        cx <= 399 < cx + 80 /\ cy <= 560 < cy + 80).
Proof.
  apply (get_square_from_pos_on_board 80 ltac:(lia) 399 560); lia.
Defined.
